(** * yt-tools: filtering, formatting and JSON normalisation

    A shallow embedding of the parts of [yt_tools] that carry logic:
    - [download.py]: [filter_videos], the format-selection expression of
      [download_videos], [format_duration];
    - [transcribe.py]: [to_jsonable];
    - [cli.py]: the local-file branch of [cmd_transcribe].

    Python values are modelled as the code uses them: dictionaries with
    string keys as [gmap string _], a raised exception as the [Raise] case of
    [result], floats as IEEE 754 binary64 values ([spec_float]), objects that
    may refer to themselves as locations of a store. *)

From Stdlib Require Import ZArith Bool Ascii String List Lia.
From Stdlib Require Import Floats.SpecFloat.
From Stdlib Require Import Decimal DecimalString DecimalN.
From stdpp Require Import base option list strings gmap.

Set Warnings "-register-all".

Open Scope string_scope.
Open Scope Z_scope.

(** ** The Python runtime *)

Module Py.

(** Exceptions the modelled code can meet.  All of them derive from
    [Exception], so an [except Exception] clause catches every one. *)
Inductive exn :=
| KeyError (key : string)
| ValueError
| OverflowError
| TypeError
| RecursionError
| OtherError (name : string).

Inductive result (A : Type) :=
| Ok (a : A)
| Raise (e : exn).
Arguments Ok {A} a.
Arguments Raise {A} e.

Definition bind {A B} (m : result A) (k : A -> result B) : result B :=
  match m with
  | Ok a => k a
  | Raise e => Raise e
  end.

Notation "'let*' x ':=' m 'in' k" := (bind m (fun x => k))
  (at level 10, x pattern, m at level 100, k at level 200).

(** [try: body / except Exception: handler] *)
Definition try_except {A} (body : result A) (handler : result A) : result A :=
  match body with
  | Ok a => Ok a
  | Raise _ => handler
  end.

(** A list comprehension [[f(x) for x in xs]]: elements are evaluated from
    left to right and the first exception aborts the comprehension. *)
Fixpoint list_comp {A B} (f : A -> result B) (xs : list A) : result (list B) :=
  match xs with
  | [] => Ok []
  | x :: rest =>
      let* y := f x in
      let* ys := list_comp f rest in
      Ok (y :: ys)
  end.

(** Python numbers: [int] (unbounded) and [float] (binary64). *)
Inductive number :=
| NInt (z : Z)
| NFloat (f : spec_float).

(** The value of a number on the extended real line; a finite one is
    [m * 2^e]. *)
Inductive extended :=
| ENan
| ENegInf
| EPosInf
| EFin (m e : Z).

Definition float_ext (f : spec_float) : extended :=
  match f with
  | S754_zero _ => EFin 0 0
  | S754_infinity s => if s then ENegInf else EPosInf
  | S754_nan => ENan
  | S754_finite s m e => EFin (cond_Zopp s (Zpos m)) e
  end.

Definition num_ext (n : number) : extended :=
  match n with
  | NInt z => EFin z 0
  | NFloat f => float_ext f
  end.

Definition fin_compare (m1 e1 m2 e2 : Z) : comparison :=
  let e := Z.min e1 e2 in
  (m1 * 2 ^ (e1 - e)) ?= (m2 * 2 ^ (e2 - e)).

(** Python compares an [int] with a [float] by their exact values; every
    comparison with NaN is false ([None] here). *)
Definition num_compare (a b : number) : option comparison :=
  match num_ext a, num_ext b with
  | ENan, _ | _, ENan => None
  | ENegInf, ENegInf => Some Eq
  | ENegInf, _ => Some Lt
  | _, ENegInf => Some Gt
  | EPosInf, EPosInf => Some Eq
  | EPosInf, _ => Some Gt
  | _, EPosInf => Some Lt
  | EFin m1 e1, EFin m2 e2 => Some (fin_compare m1 e1 m2 e2)
  end.

(** [a <= b] *)
Definition num_le (a b : number) : bool :=
  match num_compare a b with
  | Some Lt | Some Eq => true
  | _ => false
  end.

(** [a > b] *)
Definition num_gt (a b : number) : bool :=
  match num_compare a b with
  | Some Gt => true
  | _ => false
  end.

Definition is_nan (a : number) : bool :=
  match num_ext a with
  | ENan => true
  | _ => false
  end.

(** Truth value of a number: zero (of either kind and sign) is false. *)
Definition truthy (a : number) : bool :=
  match a with
  | NInt z => negb (z =? 0)
  | NFloat (S754_zero _) => false
  | NFloat _ => true
  end.

(** [int(x)]: truncation towards zero; NaN and the infinities raise. *)
Definition int_of (a : number) : result Z :=
  match a with
  | NInt z => Ok z
  | NFloat f =>
      match float_ext f with
      | ENan => Raise ValueError
      | ENegInf | EPosInf => Raise OverflowError
      | EFin m e => Ok (if 0 <=? e then m * 2 ^ e else Z.quot m (2 ^ (- e)))
      end
  end.

(** [needle in hay] on strings. *)
Fixpoint str_in (needle hay : string) : bool :=
  String.prefix needle hay ||
  match hay with
  | EmptyString => false
  | String _ rest => str_in needle rest
  end.

(** [s.endswith(suffix)] *)
Definition endswith (s suffix : string) : bool :=
  let n := String.length s in
  let k := String.length suffix in
  (k <=? n)%nat && String.eqb (String.substring (n - k) k s) suffix.

(** [s.startswith(p)] *)
Definition startswith (s p : string) : bool := String.prefix p s.

(** [str(n)] for an [int]: decimal digits, a leading [-] when negative. *)
Definition str_of_int (z : Z) : string := NilZero.string_of_int (Z.to_int z).

(** The decimal digits of a natural number. *)
Definition decimal (n : N) : string := NilZero.string_of_uint (N.to_uint n).

(** [format(n, "02d")]: at least two characters, padded with zeros after
    the sign. *)
Definition format_02d (z : Z) : string :=
  if z <? 0 then "-" ++ decimal (Z.to_N (- z))
  else
    let ds := decimal (Z.to_N z) in
    if (String.length ds <? 2)%nat then "0" ++ ds else ds.

End Py.

(** ** download.py *)

Module Download.
Import Py.

(** A video entry is the dictionary built by [list_videos]: string keys
    ([id], [duration], [title]) and string values. *)
Abbreviation entry := (gmap string string).

(** The [filters] dictionary of [cmd_download].  A field that is [None] is a
    key that is absent from the dictionary or bound to Python's [None]: the
    code reads the three keys with [get] and tests the results for truth, so
    the two cases behave alike. *)
Record filters := {
  keywords : option (list string);
  min_duration : option number;
  max_duration : option number
}.

Section Filter.

(** [float(s)] on a string: [None] stands for [ValueError]. *)
Variable float_of_str : string -> option spec_float.
(** [s.lower()] *)
Variable str_lower : string -> string.

(** Lines 12-15: the [try] block.  [v["duration"]] raises [KeyError] when
    the key is missing, which the [except] clause does not catch. *)
Definition parse_duration (v : entry) : result number :=
  match v !! "duration" with
  | None => Raise (KeyError "duration")
  | Some d =>
      if String.eqb d "NA" then Ok (NInt 0)
      else
        match float_of_str d with
        | Some f => Ok (NFloat f)
        | None => Ok (NInt 0)
        end
  end.

(** Line 18: [min_dur and duration <= min_dur] *)
Definition below_min (f : filters) (duration : number) : bool :=
  let min_dur := default (NInt 0) (min_duration f) in
  truthy min_dur && num_le duration min_dur.

(** Line 22: [max_dur and duration > max_dur] *)
Definition above_max (f : filters) (duration : number) : bool :=
  match max_duration f with
  | None => false
  | Some max_dur => truthy max_dur && num_gt duration max_dur
  end.

(** Lines 25-28: a non-empty keyword list of which some keyword is not in
    the lower-cased title. *)
Definition misses_keyword (f : filters) (v : entry) : bool :=
  let title := str_lower (default EmptyString (v !! "title")) in
  match keywords f with
  | None | Some [] => false
  | Some kws => negb (forallb (fun kw => str_in (str_lower kw) title) kws)
  end.

(** The body of the loop: [true] when the entry is appended to [result],
    [false] when one of the three [continue] statements is reached. *)
Definition keeps (f : filters) (v : entry) : result bool :=
  let* duration := parse_duration v in
  if below_min f duration then Ok false
  else if above_max f duration then Ok false
  else if misses_keyword f v then Ok false
  else Ok true.

Fixpoint filter_videos (videos : list entry) (f : filters) : result (list entry) :=
  match videos with
  | [] => Ok []
  | v :: rest =>
      let* keep := keeps f v in
      let* result := filter_videos rest f in
      Ok (if keep then v :: result else result)
  end.

End Filter.

(** Lines 59-62 of [download_videos]: the value of [fmt]. *)
Definition download_videos_fmt (resolution : string) : string :=
  if String.eqb resolution "best" then
    "bestvideo+bestaudio[ext=m4a]/bestvideo+bestaudio/best"
  else
    "bestvideo[height<=" ++ resolution ++ "]+bestaudio[ext=m4a]/bestvideo[height<="
      ++ resolution ++ "]+bestaudio/best[height<=" ++ resolution ++ "]".

(** [format_duration]: [divmod(int(seconds), 60)] is floor division and
    the matching remainder. *)
Definition format_duration (seconds : number) : result string :=
  let* n := int_of seconds in
  let mins := n / 60 in
  let secs := n mod 60 in
  Ok (format_02d mins ++ ":" ++ format_02d secs).

End Download.

(** ** transcribe.py *)

Module Transcribe.
Import Py.

(** Objects live in a store and refer to each other by location, so that a
    list can contain itself. *)
Definition loc := nat.

(** What [to_jsonable] returns: a tree it has built.  [VForeign] is any
    Python object that is none of the JSON kinds (a [complex], [bytes], a
    [datetime], ...), handed back as it is. *)
Inductive value :=
| VNone
| VBool (b : bool)
| VNum (n : number)
| VStr (s : string)
| VList (xs : list value)
| VDict (kvs : list (string * value))
| VForeign (type_name : string).

(** A dictionary key: a string, an integer, or any other hashable object,
    known by its identity and by what [str] makes of it, a string or the
    exception its [__str__] raises. *)
Inductive key :=
| KStr (s : string)
| KInt (z : Z)
| KObj (id : nat) (str : result string).

(** [str(k)] *)
Definition str_of_key (k : key) : result string :=
  match k with
  | KStr s => Ok s
  | KInt z => Ok (str_of_int z)
  | KObj _ s => s
  end.

(** numpy values, when numpy could be imported: what [obj.item()] or
    [obj.tolist()] gives. *)
Inductive np_value :=
| NpGeneric (item : result value)
| NpArray (tolist : result value).

(** An object that is neither a primitive nor a built-in container, seen
    through what [to_jsonable] does with it:
    - [dataclass]: [is_dataclass(obj)] holds, with the outcome of
      [asdict(obj)];
    - [numpy]: [np] is not [None] and [obj] is an [np.generic] or an
      [np.ndarray], with the outcome of [obj.item()] or [obj.tolist()];
    - [to_dict]: the outcome of [getattr(obj, "to_dict", None)], which
      passes on what a property or a [__getattr__] raises unless it is an
      [AttributeError]; when it returns, [Some] if what it returns is
      callable, with the outcome of the call;
    - [vars]: the outcome of [hasattr(obj, "__dict__")], which raises like
      [getattr]; when it returns, [Some] if [obj] has a [__dict__] whose
      items [vars(obj).items()] gives, in order;
    - [repr]: the outcome of [repr(obj)], a string or what [__repr__]
      raises. *)
Record object := {
  dataclass : option (result loc);
  numpy : option np_value;
  to_dict : result (option (result loc));
  vars : result (option (list (string * loc)));
  repr : result string
}.

(** Python objects by the branch of [to_jsonable] that takes them;
    [isinstance] accepts subclasses, so [PList] stands for every instance of
    [list], and so on.  [PBroken e] is an object on which the type tests of
    lines 149 to 155 raise [e] (that of [isinstance], through a [__class__]
    that raises, or that of [is_dataclass]). *)
Inductive pyobj :=
| PNone
| PBool (b : bool)
| PNum (n : number)
| PStr (s : string)
| PList (items : list loc)
| PTuple (items : list loc)
| PSet (items : list loc)
| PDict (items : list (key * loc))
| PObject (o : object)
| PBroken (e : exn).

Definition store := loc -> pyobj.

(** [d[k] = v] on a dictionary kept in insertion order: an existing key keeps
    its place and takes the new value. *)
Fixpoint dict_set {V} (k : string) (v : V) (d : list (string * V)) : list (string * V) :=
  match d with
  | [] => [(k, v)]
  | (k', v') :: rest =>
      if String.eqb k k' then (k, v) :: rest else (k', v') :: dict_set k v rest
  end.

(** A dictionary comprehension [{key(k): f(x) for k, x in items}], started
    from the dictionary [acc]: for each item the key is evaluated, then the
    value. *)
Fixpoint dict_comp {K A V} (key_of : K -> result string) (f : A -> result V)
    (items : list (K * A)) (acc : list (string * V)) : result (list (string * V)) :=
  match items with
  | [] => Ok acc
  | (k, x) :: rest =>
      let* s := key_of k in
      let* y := f x in
      dict_comp key_of f rest (dict_set s y acc)
  end.

(** [to_jsonable(obj)] with [depth] frames left before the interpreter's
    recursion limit: a call that finds none left raises [RecursionError]. *)
Fixpoint to_jsonable (h : store) (depth : nat) (obj : loc) : result value :=
  match depth with
  | O => Raise RecursionError
  | S d =>
      match h obj with
      | PNone => Ok VNone
      | PBool b => Ok (VBool b)
      | PNum n => Ok (VNum n)
      | PStr s => Ok (VStr s)
      | PList items | PTuple items | PSet items =>
          let* xs := list_comp (to_jsonable h d) items in
          Ok (VList xs)
      | PDict items =>
          let* kvs := dict_comp str_of_key (to_jsonable h d) items [] in
          Ok (VDict kvs)
      | PBroken e => Raise e
      | PObject o =>
          let by_repr := let* s := repr o in Ok (VStr s) in
          let by_vars :=
            let* has_dict := vars o in
            match has_dict with
            | Some attrs =>
                let public :=
                  List.filter (fun kv => negb (startswith (fst kv) "_")) attrs in
                try_except
                  (let* kvs := dict_comp Ok (to_jsonable h d) public [] in
                   Ok (VDict kvs))
                  by_repr
            | None => by_repr
            end in
          let by_to_dict :=
            let* method := to_dict o in
            match method with
            | Some call =>
                try_except (let* r := call in to_jsonable h d r) by_vars
            | None => by_vars
            end in
          let by_numpy :=
            match numpy o with
            | Some (NpGeneric item) => try_except item by_to_dict
            | Some (NpArray tolist) => try_except tolist by_to_dict
            | None => by_to_dict
            end in
          match dataclass o with
          | Some call => let* d' := call in to_jsonable h d d'
          | None => by_numpy
          end
      end
  end.

(** One of null, boolean, number, string, array, string-keyed object. *)
Fixpoint json_safe (v : value) : bool :=
  match v with
  | VNone | VBool _ | VNum _ | VStr _ => true
  | VList xs => forallb json_safe xs
  | VDict kvs => forallb (fun kv => json_safe (snd kv)) kvs
  | VForeign _ => false
  end.

End Transcribe.

(** ** cli.py *)

Module Cli.
Import Py.

(** *** [os.path] on POSIX *)

(** Index of the last occurrence of [c] in [s], counted from 0. *)
Fixpoint rfind_from (c : ascii) (s : string) (i : nat) (found : option nat) : option nat :=
  match s with
  | EmptyString => found
  | String a rest =>
      rfind_from c rest (S i) (if Ascii.eqb a c then Some i else found)
  end.

Definition rfind (c : ascii) (s : string) : option nat := rfind_from c s 0%nat None.

Definition slice_from (i : nat) (s : string) : string :=
  String.substring i (String.length s - i) s.

Definition slice_to (i : nat) (s : string) : string := String.substring 0 i s.

(** [os.path.basename(p)]: what follows the last slash. *)
Definition basename (p : string) : string :=
  match rfind "/" p with
  | Some i => slice_from (S i) p
  | None => p
  end.

(** The [while] loop of [genericpath._splitext]: is some character of
    [p[i:dot]] not a dot? *)
Fixpoint has_non_dot (p : string) (i dot : nat) : bool :=
  match p with
  | EmptyString => false
  | String a rest =>
      match dot with
      | O => false
      | S dot' =>
          match i with
          | O => negb (Ascii.eqb a ".") || has_non_dot rest 0 dot'
          | S i' => has_non_dot rest i' dot'
          end
      end
  end.

(** [os.path.splitext(p)]: the extension starts at the last dot, if that
    dot comes after the last slash and after a character of the file name
    that is not a dot. *)
Definition splitext (p : string) : string * string :=
  let filename_index := match rfind "/" p with Some i => S i | None => O end in
  match rfind "." p with
  | Some dot =>
      if (filename_index <=? dot)%nat && has_non_dot p filename_index dot
      then (slice_to dot p, slice_from dot p)
      else (p, EmptyString)
  | None => (p, EmptyString)
  end.

(** [os.path.join(a, b)] *)
Definition join (a b : string) : string :=
  if startswith b "/" then b
  else if String.eqb a EmptyString || endswith a "/" then a ++ b
  else a ++ "/" ++ b.

(** *** The file system and the terminal *)

Record world := {
  files : gmap string string;   (* regular files, by absolute path *)
  dirs : gset string;           (* directories, by absolute path *)
  stderr : list string          (* lines printed to standard error *)
}.

(** The arguments of the [transcribe] subcommand. *)
Record args := {
  source : string;
  outdir : string;
  model : string;
  chunk_seconds : number;
  overlap_seconds : number
}.

(** How the local-file branch ends when nothing is raised: [return 1], or
    on to the transcription with [wav_path] and [base_name]. *)
Inductive outcome :=
| Return (code : Z)
| Proceed (wav_path base_name : string).

Section Command.

(** [s.lower()] *)
Variable str_lower : string -> string.
(** [os.path.abspath], which depends on the working directory. *)
Variable abspath : string -> string.

Definition isfile (w : world) (p : string) : bool :=
  bool_decide (is_Some (files w !! abspath p)).

Definition print_stderr (line : string) (w : world) : world :=
  {| files := files w; dirs := dirs w; stderr := stderr w ++ [line] |}.

(** [os.makedirs(p, exist_ok=True)]; the directories above [p] are not
    tracked. *)
Definition makedirs (p : string) (w : world) : world :=
  {| files := files w; dirs := {[abspath p]} ∪ dirs w; stderr := stderr w |}.

(** [shutil.copyfile(src, dst)]: [dst] gets the contents of [src].  It
    first refuses to copy a file onto itself, with [SameFileError]; a [src]
    that is no file gives [FileNotFoundError]. *)
Definition copyfile (src dst : string) (w : world) : result unit * world :=
  if String.eqb (abspath src) (abspath dst) then
    (Raise (OtherError "SameFileError"), w)
  else
    match files w !! abspath src with
    | Some contents =>
        (Ok tt, {| files := <[abspath dst := contents]> (files w);
                   dirs := dirs w; stderr := stderr w |})
    | None => (Raise (OtherError "FileNotFoundError"), w)
    end.

Definition is_url (source : string) : bool :=
  startswith source "http://" || startswith source "https://".

(** Lines 67-82: the [else] branch of [cmd_transcribe]. *)
Definition local_source (a : args) (w : world) : result outcome * world :=
  if negb (isfile w (source a)) then
    (Ok (Return 1), print_stderr ("Error: file not found: " ++ source a) w)
  else if negb (endswith (str_lower (source a)) ".wav") then
    (Ok (Return 1),
     print_stderr
       ("Error: local files must be WAV. Provide a YouTube URL instead, "
        ++ "or convert your file to WAV (16kHz mono recommended)") w)
  else
    let w1 := makedirs (outdir a) w in
    let base_name := fst (splitext (basename (source a))) in
    let dest_wav_path := join (outdir a) (base_name ++ ".wav") in
    if negb (String.eqb (abspath (source a)) (abspath dest_wav_path)) then
      match copyfile (source a) dest_wav_path w1 with
      | (Ok _, w2) => (Ok (Proceed dest_wav_path base_name), w2)
      | (Raise e, w2) => (Raise e, w2)
      end
    else (Ok (Proceed dest_wav_path base_name), w1).

(** [download_audio_with_ytdlp(source, outdir)], an external download. *)
Variable download_audio_with_ytdlp : string -> string -> world -> result outcome * world.
(** Lines 84-96: the transcription of [wav_path] and the writing of
    [base_name.txt] and [base_name.json] in the output directory; gives the
    exit status, or what was raised. *)
Variable transcribe_and_write : args -> string -> string -> world -> result Z * world.

Definition cmd_transcribe (a : args) (w : world) : result Z * world :=
  let '(o, w') :=
    if is_url (source a) then download_audio_with_ytdlp (source a) (outdir a) w
    else local_source a w in
  match o with
  | Ok (Return code) => (Ok code, w')
  | Ok (Proceed wav_path base_name) => transcribe_and_write a wav_path base_name w'
  | Raise e => (Raise e, w')
  end.

End Command.

End Cli.

(** ** The runtime's string functions on ASCII text

    [filter_videos] and [cmd_transcribe] are stated for any [float] and
    [str.lower]; the examples run them with the functions below, which agree
    with Python's on ASCII strings. *)

Module Runtime.

Definition lower_char (c : ascii) : ascii :=
  let n := nat_of_ascii c in
  if (65 <=? n)%nat && (n <=? 90)%nat then ascii_of_nat (n + 32) else c.

Fixpoint lower (s : string) : string :=
  match s with
  | EmptyString => EmptyString
  | String c rest => String (lower_char c) (lower rest)
  end.

(** The ASCII characters of [str.isspace], which [str.strip] removes: space,
    tab to carriage return (9-13) and the four separators (28-31). *)
Definition is_space (c : ascii) : bool :=
  let n := nat_of_ascii c in
  (n =? 32)%nat || ((9 <=? n)%nat && (n <=? 13)%nat)
  || ((28 <=? n)%nat && (n <=? 31)%nat).

Fixpoint lstrip (s : list ascii) : list ascii :=
  match s with
  | c :: rest => if is_space c then lstrip rest else s
  | [] => []
  end.

Definition strip (s : list ascii) : list ascii := rev (lstrip (rev (lstrip s))).

(** The white space [float] skips at both ends of its argument: space and
    tab to carriage return (9-13), but not the separators (28-31). *)
Definition is_float_space (c : ascii) : bool :=
  let n := nat_of_ascii c in
  (n =? 32)%nat || ((9 <=? n)%nat && (n <=? 13)%nat).

Fixpoint float_lstrip (s : list ascii) : list ascii :=
  match s with
  | c :: rest => if is_float_space c then float_lstrip rest else s
  | [] => []
  end.

Definition float_strip (s : list ascii) : list ascii :=
  rev (float_lstrip (rev (float_lstrip s))).

Definition digit_of (c : ascii) : option Z :=
  let n := nat_of_ascii c in
  if (48 <=? n)%nat && (n <=? 57)%nat then Some (Z.of_nat (n - 48)) else None.

(** The tail of a [digitpart]: digits, each possibly after one underscore.
    [acc] is the number read so far and [count] how many digits it has. *)
Fixpoint digits_tail (s : list ascii) (acc : Z) (count : Z) : Z * Z * list ascii :=
  match s with
  | c :: rest =>
      match digit_of c with
      | Some d => digits_tail rest (10 * acc + d) (count + 1)
      | None =>
          if Ascii.eqb c "_" then
            match rest with
            | c' :: rest' =>
                match digit_of c' with
                | Some d => digits_tail rest' (10 * acc + d) (count + 1)
                | None => (acc, count, s)
                end
            | [] => (acc, count, s)
            end
          else (acc, count, s)
      end
  | [] => (acc, count, [])
  end.

(** [digitpart ::= digit (["_"] digit)*], read after the number [acc]. *)
Definition digitpart (s : list ascii) (acc : Z) : option (Z * Z * list ascii) :=
  match s with
  | c :: rest =>
      match digit_of c with
      | Some d => Some (digits_tail rest (10 * acc + d) 1)
      | None => None
      end
  | [] => None
  end.

Definition sign_of (s : list ascii) : bool * list ascii :=
  match s with
  | c :: rest =>
      if Ascii.eqb c "-" then (true, rest)
      else if Ascii.eqb c "+" then (false, rest)
      else (false, s)
  | [] => (false, [])
  end.

(** [exponent ::= ("e" | "E") [sign] digitpart], or nothing; the text must
    end there. *)
Definition exponent (s : list ascii) : option Z :=
  match s with
  | [] => Some 0
  | c :: rest =>
      if Ascii.eqb (lower_char c) "e" then
        let '(neg, rest') := sign_of rest in
        match digitpart rest' 0 with
        | Some (x, _, []) => Some (cond_Zopp neg x)
        | _ => None
        end
      else None
  end.

(** [floatnumber]: the digits as an integer [m] and a power of ten [e], the
    number being [m * 10^e]. *)
Definition floatnumber (s : list ascii) : option (Z * Z) :=
  match digitpart s 0 with
  | Some (ip, _, rest) =>
      match rest with
      | "."%char :: rest' =>
          match digitpart rest' ip with
          | Some (m, nf, rest'') =>
              match exponent rest'' with
              | Some x => Some (m, x - nf)
              | None => None
              end
          | None =>
              match exponent rest' with
              | Some x => Some (ip, x)
              | None => None
              end
          end
      | _ =>
          match exponent rest with
          | Some x => Some (ip, x)
          | None => None
          end
      end
  | None =>
      match s with
      | "."%char :: rest' =>
          match digitpart rest' 0 with
          | Some (m, nf, rest'') =>
              match exponent rest'' with
              | Some x => Some (m, x - nf)
              | None => None
              end
          | None => None
          end
      | _ => None
      end
  end.

(** The binary64 value nearest to [m * 10^e], ties to even. *)
Definition nearest_float (neg : bool) (m e : Z) : spec_float :=
  match m with
  | Zpos p =>
      if 0 <=? e then binary_normalize 53 1024 (cond_Zopp neg (m * 10 ^ e)) 0 false
      else SFdiv 53 1024 (S754_finite neg p 0)
                         (S754_finite false (Z.to_pos (10 ^ (- e))) 0)
  | _ => S754_zero neg
  end.

(** [float(s)] for a string of ASCII characters. *)
Definition float (s : string) : option spec_float :=
  let '(neg, body) := sign_of (float_strip (list_ascii_of_string s)) in
  let word := lower (string_of_list_ascii body) in
  if String.eqb word "inf" || String.eqb word "infinity" then Some (S754_infinity neg)
  else if String.eqb word "nan" then Some S754_nan
  else
    match floatnumber body with
    | Some (m, e) => Some (nearest_float neg m e)
    | None => None
    end.

End Runtime.

(** ** The words of the specification *)

Module Spec.
Import Py.

(** [floor(d)] for the finite number [m * 2^e]. *)
Definition floor (m e : Z) : Z :=
  if 0 <=? e then m * 2 ^ e else m / 2 ^ (- e).

(** A field of at least two digits, padded with a zero. *)
Definition zero_padded (z : Z) : string :=
  if z <? 10 then "0" ++ decimal (Z.to_N z) else decimal (Z.to_N z).

Definition is_digit (c : ascii) : bool :=
  let n := nat_of_ascii c in (48 <=? n)%nat && (n <=? 57)%nat.

Fixpoint all_digits (s : string) : bool :=
  match s with
  | EmptyString => true
  | String c rest => is_digit c && all_digits rest
  end.

(** The text before the first occurrence of [sep], and the text after it. *)
Fixpoint split_first (sep : ascii) (s : string) : option (string * string) :=
  match s with
  | EmptyString => None
  | String c rest =>
      if Ascii.eqb c sep then Some (EmptyString, rest)
      else
        match split_first sep rest with
        | Some (a, b) => Some (String c a, b)
        | None => None
        end
  end.

(** The whole string matches [\d{2,}:\d{2}]. *)
Definition matches_mmss (s : string) : bool :=
  match split_first ":" s with
  | Some (mins, secs) =>
      all_digits mins && (2 <=? String.length mins)%nat
      && all_digits secs && (String.length secs =? 2)%nat
  | None => false
  end.

(** A numeric resolution token: one digit or more. *)
Definition numeric (r : string) : bool :=
  all_digits r && negb (String.eqb r EmptyString).

Fixpoint slash_free (s : string) : bool :=
  match s with
  | EmptyString => true
  | String c rest => negb (Ascii.eqb c "/") && slash_free rest
  end.

(** The alternatives of a format-selection expression, which [/] separates:
    the downloader tries them from left to right. *)
Fixpoint tiers (fmt : string) : list string :=
  match fmt with
  | EmptyString => [EmptyString]
  | String c rest =>
      if Ascii.eqb c "/" then EmptyString :: tiers rest
      else
        match tiers rest with
        | t :: ts => String c t :: ts
        | [] => [String c EmptyString]
        end
  end.

(** *** File names *)

Fixpoint dot_free (s : string) : bool :=
  match s with
  | EmptyString => true
  | String c rest => negb (Ascii.eqb c ".") && dot_free rest
  end.

(** Every character of [s] is a dot. *)
Fixpoint all_dots (s : string) : bool :=
  match s with
  | EmptyString => true
  | String c rest => Ascii.eqb c "." && all_dots rest
  end.

(** [s] without the dots it starts with. *)
Fixpoint drop_dots (s : string) : string :=
  match s with
  | EmptyString => EmptyString
  | String c rest => if Ascii.eqb c "." then drop_dots rest else s
  end.

(** [name] is the file name of [path]: what follows its last slash. *)
Definition file_name_of (path name : string) : Prop :=
  exists dir, path = dir ++ name
    /\ slash_free name = true
    /\ (dir = EmptyString \/ exists d, dir = d ++ "/").

(** [base] is the file name [name] minus its extension.  The extension
    starts at the last dot of the name; a name whose last dot has only dots
    before it, or that has no dot, has no extension. *)
Definition minus_extension (name base : string) : Prop :=
  exists ext, name = base ++ ext
    /\ ((ext = EmptyString /\ dot_free (drop_dots name) = true)
        \/ (exists e, ext = String "." e /\ dot_free e = true /\ all_dots base = false)).

(** [path] names the file [name] of the directory [dir]; the empty [dir] is
    the working directory. *)
Definition inside (dir name path : string) : Prop :=
  ((dir = EmptyString \/ exists d, dir = d ++ "/") /\ path = dir ++ name)
  \/ (dir <> EmptyString /\ (forall d, dir <> d ++ "/") /\ path = dir ++ "/" ++ name).

(** *** Shapes of the values given to [to_jsonable] *)

Import Transcribe.

(** The object at [l] is the JSON value [v]: a primitive, a list of such
    objects, or a dictionary from strings to such objects. *)
Inductive stored (h : store) : loc -> value -> Prop :=
| stored_none l : h l = PNone -> stored h l VNone
| stored_bool l b : h l = PBool b -> stored h l (VBool b)
| stored_num l n : h l = PNum n -> stored h l (VNum n)
| stored_str l s : h l = PStr s -> stored h l (VStr s)
| stored_list l items xs :
    h l = PList items ->
    Forall2 (stored h) items xs ->
    stored h l (VList xs)
| stored_dict l items kvs :
    h l = PDict items ->
    NoDup (map fst items) ->
    Forall2 (fun item kv => fst item = KStr (fst kv) /\ stored h (snd item) (snd kv))
      items kvs ->
    stored h l (VDict kvs).

(** How deep a value is nested. *)
Fixpoint height (v : value) : nat :=
  match v with
  | VList xs => S (list_max (map height xs))
  | VDict kvs => S (list_max (map (fun kv => height (snd kv)) kvs))
  | _ => O
  end.

Definition is_ok {A} (r : result A) : bool :=
  match r with
  | Ok _ => true
  | Raise _ => false
  end.

(** The nesting of the object at [l] is below [n], and nothing is raised
    outside a [try] on the way.  The nesting counts the containers that
    [to_jsonable] enters outside any [try]: lists, tuples, sets,
    dictionaries and what [asdict] returns.  What [to_dict()] returns and
    the attributes of an object are not looked at, since they are converted
    inside a [try]: such an object may well lead back to itself.  Outside a
    [try] are the type tests, [str] on a key, [asdict], and on an object
    that numpy does not convert [getattr], [hasattr] and [repr]. *)
Fixpoint nested_below (h : store) (n : nat) (l : loc) : bool :=
  match n with
  | O => false
  | S m =>
      match h l with
      | PNone | PBool _ | PNum _ | PStr _ => true
      | PList items | PTuple items | PSet items => forallb (nested_below h m) items
      | PDict items =>
          forallb (fun item => is_ok (str_of_key (fst item)) && nested_below h m (snd item))
            items
      | PObject o =>
          match dataclass o with
          | Some (Ok fields) => nested_below h m fields
          | Some (Raise _) => false
          | None =>
              match numpy o with
              | Some (NpGeneric (Ok _)) | Some (NpArray (Ok _)) => true
              | _ => is_ok (to_dict o) && is_ok (vars o) && is_ok (repr o)
              end
          end
      | PBroken _ => false
      end
  end.

(** numpy's [item()] and [tolist()] give JSON values when they return. *)
Definition numpy_json (h : store) : Prop :=
  forall l o x, h l = PObject o ->
    numpy o = Some (NpGeneric (Ok x)) \/ numpy o = Some (NpArray (Ok x)) ->
    json_safe x = true.

(** Some operation that [to_jsonable] performs outside any [try] raises [e]
    on an object of the store: a type test, [str] on a dictionary key,
    [asdict], [getattr(obj, "to_dict", None)], [hasattr(obj, "__dict__")]
    or [repr]. *)
Definition raised_outside_try (h : store) (e : exn) : Prop :=
  (exists l, h l = PBroken e)
  \/ (exists l items k, h l = PDict items /\ k ∈ map fst items /\ str_of_key k = Raise e)
  \/ (exists l o, h l = PObject o
        /\ (dataclass o = Some (Raise e) \/ to_dict o = Raise e
            \/ vars o = Raise e \/ repr o = Raise e)).

(** [to_jsonable] returns a JSON value on the object at [l]. *)
Definition converted (h : store) (depth : nat) (l : loc) : Prop :=
  exists v, to_jsonable h depth l = Ok v /\ json_safe v = true.

End Spec.

(** ** Sample inputs *)

Module Samples.
Import Py Download.

(** The dictionary [list_videos] builds from one line of output. *)
Definition video (id duration title : string) : entry :=
  {[ "id" := id; "duration" := duration; "title" := title ]}.

Definition full_videos : filters :=
  {| keywords := None; min_duration := Some (NInt 60); max_duration := None |}.

Definition crossing : filters :=
  {| keywords := Some ["Crossing"];
     min_duration := Some (NInt 60);
     max_duration := Some (NInt 600) |}.

Definition crossing_none : filters :=
  {| keywords := None; min_duration := Some (NInt 60); max_duration := Some (NInt 600) |}.

Definition listing : list entry :=
  [video "a" "45" "Road crossing"; video "b" "NA" "Crossing";
   video "c" "90.5" "River CROSSING"; video "d" "120" "Bridge";
   video "e" "601" "crossing the sea"].

(** A clip of five seconds, and filters whose [max_duration] is 0. *)
Definition clip : entry := video "a" "5" "clip".

Definition max_zero : filters :=
  {| keywords := Some []; min_duration := Some (NInt 0); max_duration := Some (NInt 0) |}.

(** 5.0 as a binary64 value. *)
Definition seconds_5 : spec_float := S754_finite false 5629499534213120 (-50).

(** [filter_videos] on ASCII text. *)
Abbreviation filter_ascii := (Download.filter_videos Runtime.float Runtime.lower).
Abbreviation duration_ascii := (Download.parse_duration Runtime.float).

(** 125.9 as a binary64 value. *)
Definition seconds_125_9 : spec_float := S754_finite false 8859424891967898 (-46).

(** A working directory for [os.path.abspath]; the sample paths hold no
    [.] or [..] and no doubled slash. *)
Definition abspath (p : string) : string :=
  if startswith p "/" then p else "/home/user/" ++ p.

Definition home : Cli.world :=
  {| Cli.files := {[ "/home/user/talk.WAV" := "RIFF-talk";
                     "/home/user/notes.mp3" := "ID3-notes";
                     "/home/user/transcriptions/done.wav" := "RIFF-done" ]};
     Cli.dirs := {[ "/home/user" ]};
     Cli.stderr := [] |}.

Definition transcribe (source : string) : Cli.args :=
  {| Cli.source := source;
     Cli.outdir := "transcriptions";
     Cli.model := "mlx-community/parakeet-tdt-0.6b-v2";
     Cli.chunk_seconds := NInt 120;
     Cli.overlap_seconds := NInt 15 |}.

(** A download that fails, and a transcription that writes its two files. *)
Definition no_network (url outdir : string) (w : Cli.world)
    : result Cli.outcome * Cli.world :=
  (Ok (Cli.Return 1), w).

Definition write_two_files (a : Cli.args) (wav_path base_name : string) (w : Cli.world)
    : result Z * Cli.world :=
  (Ok 0, {| Cli.files :=
           <[abspath (Cli.join (Cli.outdir a) (base_name ++ ".json")) := "{}"]>
             (<[abspath (Cli.join (Cli.outdir a) (base_name ++ ".txt")) := "text"]>
                (Cli.files w));
         Cli.dirs := Cli.dirs w;
         Cli.stderr := Cli.stderr w |}).

Abbreviation run :=
  (Cli.cmd_transcribe Runtime.lower abspath no_network write_two_files).

(** *** Stores *)

Import Transcribe.

(** [a = []; a.append(a)] *)
Definition self_list : store := fun _ => PList [0%nat].

(** [{1: "first", "1": "second"}] at location 0. *)
Definition colliding : store := fun l =>
  match l with
  | 0%nat => PDict [(KInt 1, 1%nat); (KStr "1", 2%nat)]
  | 1%nat => PStr "first"
  | _ => PStr "second"
  end.

(** [{"text": "hello", "confidence": 0.5, "tokens": [None, True, 3]}] at
    location 0. *)
Definition transcript : store := fun l =>
  match l with
  | 0%nat => PDict [(KStr "text", 1%nat); (KStr "confidence", 2%nat); (KStr "tokens", 3%nat)]
  | 1%nat => PStr "hello"
  | 2%nat => PNum (NFloat (S754_finite false 4503599627370496 (-53)))
  | 3%nat => PList [4%nat; 5%nat; 6%nat]
  | 4%nat => PNone
  | 5%nat => PBool true
  | _ => PNum (NInt 3)
  end.

Definition plain_object (r : string) : object :=
  {| dataclass := None; numpy := None; to_dict := Ok None; vars := Ok None;
     repr := Ok r |}.

(** At 0 a dataclass instance with one field that holds the tuple at 2; at 5
    a dataclass type, on which [asdict] raises; at 6 a numpy complex scalar;
    at 7 an object whose attribute [me] is the object itself; at 8 an object
    with no attributes. *)
Definition objects : store := fun l =>
  match l with
  | 0%nat => PObject {| dataclass := Some (Ok 1%nat); numpy := None; to_dict := Ok None;
                        vars := Ok (Some [("words", 2%nat)]);
                        repr := Ok "Sentence(...)" |}
  | 1%nat => PDict [(KStr "words", 2%nat)]
  | 2%nat => PTuple [3%nat; 4%nat]
  | 3%nat => PStr "hello"
  | 4%nat => PStr "world"
  | 5%nat => PObject {| dataclass := Some (Raise TypeError); numpy := None;
                        to_dict := Ok None; vars := Ok (Some []);
                        repr := Ok "<class 'Sentence'>" |}
  | 6%nat => PObject {| dataclass := None;
                        numpy := Some (NpGeneric (Ok (VForeign "complex")));
                        to_dict := Ok None; vars := Ok None;
                        repr := Ok "np.complex128(1+2j)" |}
  | 7%nat => PObject {| dataclass := None; numpy := None; to_dict := Ok None;
                        vars := Ok (Some [("me", 7%nat); ("_hidden", 7%nat)]);
                        repr := Ok "<Node object>" |}
  | _ => PObject (plain_object "<object object>")
  end.

(** A node of a tree: [to_dict()] gives a dictionary that holds the list of
    its children, and the attribute [parent] leads back to the list the node
    is in.  At 0 the list of the root. *)
Definition tree_node (parent : loc) (as_dict : result loc) (r : result string) : object :=
  {| dataclass := None; numpy := None; to_dict := Ok (Some as_dict);
     vars := Ok (Some [("parent", parent)]); repr := r |}.

Definition tree : store := fun l =>
  match l with
  | 0%nat => PList [1%nat]
  | 1%nat => PObject (tree_node 0%nat (Ok 2%nat) (Ok "<Node root>"))
  | 2%nat => PDict [(KStr "name", 3%nat); (KStr "children", 0%nat)]
  | _ => PStr "root"
  end.

(** An object with no attributes whose [__repr__] raises, a dictionary one
    of whose keys has a [__str__] that raises, and an object whose
    [__getattr__] raises [KeyError] for an unknown name. *)
Definition unprintable : store := fun l =>
  match l with
  | 0%nat => PObject {| dataclass := None; numpy := None; to_dict := Ok None;
                        vars := Ok None; repr := Raise ValueError |}
  | 1%nat => PDict [(KStr "id", 3%nat); (KObj 0 (Raise ValueError), 3%nat)]
  | 2%nat => PObject {| dataclass := None; numpy := None;
                        to_dict := Raise (KeyError "to_dict");
                        vars := Ok None; repr := Ok "<Record>" |}
  | _ => PNum (NInt 1)
  end.

End Samples.

(** ** download.py: listing and downloading *)

Module Listing.
Import Py Download.

Definition tab : ascii := "009"%char.
Definition newline : ascii := "010"%char.

(** [s.split(sep)] for a separator of one character: the pieces between
    the occurrences of [sep], empty ones included. *)
Fixpoint split_on (sep : ascii) (s : string) : list string :=
  match s with
  | EmptyString => [EmptyString]
  | String c rest =>
      if Ascii.eqb c sep then EmptyString :: split_on sep rest
      else
        match split_on sep rest with
        | piece :: pieces => String c piece :: pieces
        | [] => [String c EmptyString]
        end
  end.

(** [s.split(sep, maxsplit)]: the string is cut at the first [maxsplit]
    occurrences of [sep] only. *)
Fixpoint split_max (sep : ascii) (maxsplit : nat) (s : string) : list string :=
  match maxsplit with
  | O => [s]
  | S k =>
      match Spec.split_first sep s with
      | Some (piece, rest) => piece :: split_max sep k rest
      | None => [s]
      end
  end.

(** Lines 42-49: the entry made from one line, if any. *)
Definition entry_of_line (line : string) : option entry :=
  if str_in (String tab EmptyString) line then
    match split_max tab 2 line with
    | id :: duration :: title :: _ =>
        Some {[ "id" := id; "duration" := duration; "title" := title ]}
    | _ => None
    end
  else None.

(** The line that the template of line 37, [%(id)s\t%(duration)s\t%(title)s],
    prints for a video, and the text of several lines. *)
Definition printed_line (id duration title : string) : string :=
  id ++ String tab (duration ++ String tab title).

Definition unlines (lines : list string) : string :=
  String.concat (String newline EmptyString) lines.

(** How many times [c] occurs in [s]. *)
Fixpoint count_char (c : ascii) (s : string) : nat :=
  match s with
  | EmptyString => O
  | String a rest => ((if Ascii.eqb a c then 1 else 0) + count_char c rest)%nat
  end.

(** Lines 40-50, on the text [result.stdout.strip()]. *)
Definition parse_listing (text : string) : list entry :=
  omap entry_of_line (split_on newline text).

(** What is printed, run and created: the lines given to [print], the
    argument lists given to [subprocess.run] on line 74 (the downloads; the
    listing process of line 38 is the function [flat_playlist] below), the
    directories made.  Printing, starting a process and making a directory
    are taken to succeed: failures of the operating system are left out. *)
Record console := {
  stdout : list string;
  processes : list (list string);
  created : list string
}.

(** A computation that prints and runs processes, and may raise. *)
Definition eff (A : Type) : Type := console -> result A * console.

Definition ret {A} (a : A) : eff A := fun c => (Ok a, c).

Definition raise {A} (e : exn) : eff A := fun c => (Raise e, c).

Definition lift {A} (r : result A) : eff A := fun c => (r, c).

Definition and_then {A B} (m : eff A) (k : A -> eff B) : eff B :=
  fun c =>
    match m c with
    | (Ok a, c') => k a c'
    | (Raise e, c') => (Raise e, c')
    end.

Notation "'do*' x ':=' m 'in' k" := (and_then m (fun x => k))
  (at level 10, x pattern, m at level 100, k at level 200).

Definition print (line : string) : eff unit :=
  fun c => (Ok tt, {| stdout := stdout c ++ [line];
                      processes := processes c;
                      created := created c |}).

(** [subprocess.run(args)], whose exit status the code does not look at. *)
Definition run (args : list string) : eff unit :=
  fun c => (Ok tt, {| stdout := stdout c;
                      processes := processes c ++ [args];
                      created := created c |}).

(** [path.mkdir(parents=True, exist_ok=True)] *)
Definition mkdir (path : string) : eff unit :=
  fun c => (Ok tt, {| stdout := stdout c;
                      processes := processes c;
                      created := created c ++ [path] |}).

(** [v[key]] *)
Definition item (v : entry) (key : string) : result string :=
  match v !! key with
  | Some x => Ok x
  | None => Raise (KeyError key)
  end.

Section External.

(** [s.strip()] *)
Variable str_strip : string -> string.
(** The standard output of [yt-dlp --flat-playlist --print ...] on a URL. *)
Variable flat_playlist : string -> string.
(** [str(Path(s))] *)
Variable path_str : string -> string.

Definition list_videos (url : string) : list entry :=
  parse_listing (str_strip (flat_playlist url)).

(** Lines 64-74: the loop of [download_videos]. *)
Fixpoint download_each (videos : list entry) (output_path fmt : string) : eff unit :=
  match videos with
  | [] => ret tt
  | v :: rest =>
      do* id := lift (item v "id") in
      let video_url := "https://www.youtube.com/watch?v=" ++ id in
      let args := ["yt-dlp"; "-f"; fmt; "--merge-output-format"; "mp4";
                   "-o"; output_path ++ "/%(title)s.%(ext)s"; video_url] in
      do* title := lift (item v "title") in
      do* _ := print ("Downloading: " ++ String.substring 0 70 title ++ "...") in
      do* _ := run args in
      download_each rest output_path fmt
  end.

Definition download_videos (videos : list entry) (output_dir resolution : string)
    : eff unit :=
  let output_path := path_str output_dir in
  do* _ := mkdir output_path in
  download_each videos output_path (download_videos_fmt resolution).

End External.

End Listing.

(** ** cli.py: the download subcommand *)

Module DownloadCmd.
Import Py Download Listing.

(** The arguments of the [download] subcommand. *)
Record args := {
  url : string;
  keywords : list string;
  download : bool;
  max : option Z;
  output : string;
  resolution : string;
  shorts : bool;
  only_shorts : bool
}.

(** [xs[:n]]: the first [n] elements, or all but the last [-n] when [n] is
    negative. *)
Definition slice_to {A} (n : Z) (xs : list A) : list A :=
  if 0 <=? n then take (Z.to_nat n) xs
  else take (length xs - Z.to_nat (- n)) xs.

(** [format(s, "3")] for the text of an integer: right-aligned in three
    columns. *)
Definition format_3 (s : string) : string :=
  String.concat EmptyString (repeat " " (3 - String.length s)) ++ s.

(** Lines 36-37: [if args.max: videos = videos[:args.max]]. *)
Definition truncate (max : option Z) (videos : list entry) : list entry :=
  match max with
  | Some n => if n =? 0 then videos else slice_to n videos
  | None => videos
  end.

Section External.

Variable float_of_str : string -> option spec_float.
Variable str_lower : string -> string.
Variable str_strip : string -> string.
Variable flat_playlist : string -> string.
Variable path_str : string -> string.

(** Lines 26-30. *)
Definition filters_of (a : args) : filters :=
  {| Download.keywords := Some (keywords a);
     min_duration := Some (NInt (if shorts a || only_shorts a then 0 else 60));
     max_duration := if only_shorts a then Some (NInt 60) else None |}.

(** Line 45: as line 13 of [filter_videos], but outside any [try]. *)
Definition listed_duration (v : entry) : result number :=
  let* d := item v "duration" in
  if String.eqb d "NA" then Ok (NInt 0)
  else
    match float_of_str d with
    | Some f => Ok (NFloat f)
    | None => Raise ValueError
    end.

(** Lines 44-46: [for i, v in enumerate(videos, 1)]. *)
Fixpoint print_listing (i : Z) (videos : list entry) : eff unit :=
  match videos with
  | [] => ret tt
  | v :: rest =>
      do* dur := lift (listed_duration v) in
      do* text := lift (format_duration dur) in
      do* title := lift (item v "title") in
      do* _ := print (format_3 (str_of_int i) ++ ". [" ++ text ++ "] " ++ title) in
      print_listing (i + 1) rest
  end.

Definition cmd_download (a : args) : eff Z :=
  do* _ := print ("Fetching videos from " ++ url a ++ "...") in
  let videos := list_videos str_strip flat_playlist (url a) in
  do* videos := lift (filter_videos float_of_str str_lower videos (filters_of a)) in
  let videos := truncate (max a) videos in
  match videos with
  | [] =>
      do* _ := print "No videos match the filters." in
      ret 1
  | _ :: _ =>
      do* _ := print (String newline
                        ("Found " ++ str_of_int (Z.of_nat (length videos)) ++ " videos:"
                         ++ String newline EmptyString)) in
      do* _ := print_listing 1 videos in
      do* _ :=
        if download a then
          do* _ := print EmptyString in
          download_videos path_str videos (output a) (resolution a)
        else ret tt in
      ret 0
  end.

End External.

End DownloadCmd.

(** ** transcribe.py: the files of a transcription *)

Module Transcripts.
Import Py Transcribe Cli.

(** Lines 102-106 of [download_audio_with_ytdlp]: the path of the audio
    file and the base name, from the file name the downloader prepared. *)
Definition audio_paths (prepared_path target_format : string) : string * string :=
  let base_path := fst (splitext prepared_path) in
  (base_path ++ "." ++ target_format, basename base_path).

Section External.

Variable abspath : string -> string.
(** [result.text] as [f.write] takes it: a string, or the exception of the
    attribute access or of the write. *)
Variable text_of : loc -> result string.
(** [json.dump(v, jf, ensure_ascii=False, indent=2)]: the text it writes,
    and the exception that stops it, if any. *)
Variable json_dump : value -> string * option exn.

(** [open(path, "w")] followed by the writing of [contents]; opening alone
    leaves the file empty.  Opening is taken to succeed. *)
Definition write_file (path contents : string) (w : world) : world :=
  {| files := <[abspath path := contents]> (files w);
     dirs := dirs w;
     stderr := stderr w |}.

(** [write_transcripts], the objects being those of the store [h] and
    [depth] the frames left for [to_jsonable]. *)
Definition write_transcripts (h : store) (depth : nat)
    (output_directory base_name : string) (result : loc) (w : world)
    : Py.result (string * string) * world :=
  let text_path := join output_directory (base_name ++ ".txt") in
  let json_path := join output_directory (base_name ++ ".json") in
  let w1 := write_file text_path EmptyString w in
  match text_of result with
  | Raise e => (Raise e, w1)
  | Ok text =>
      let w2 := write_file text_path text w1 in
      let w3 := write_file json_path EmptyString w2 in
      match to_jsonable h depth result with
      | Raise e => (Raise e, w3)
      | Ok v =>
          let '(written, stopped) := json_dump v in
          let w4 := write_file json_path written w3 in
          match stopped with
          | Some e => (Raise e, w4)
          | None => (Ok (text_path, json_path), w4)
          end
      end
  end.

End External.

End Transcripts.

(** ** More sample inputs *)

Module Fixtures.
Import Py Download Listing.

(** [s.strip()] on ASCII text. *)
Definition strip (s : string) : string :=
  string_of_list_ascii (Runtime.strip (list_ascii_of_string s)).

(** Four videos of a channel: one of 45 seconds, one whose duration is not
    known, one of 90.5 seconds and one of 601 seconds. *)
Definition rows : list (string * string * string) :=
  [("a", "45", "Road crossing"); ("b", "NA", "Crossing");
   ("c", "90.5", "River CROSSING"); ("e", "601", "crossing the sea")].

Definition lines_of (videos : list (string * string * string)) : string :=
  unlines (map (fun row => printed_line row.1.1 row.1.2 row.2) videos).

(** What the lister prints for the channel, and for a channel one of whose
    durations is malformed, and for one whose first video has a duration of
    NaN. *)
Definition channel (url : string) : string :=
  lines_of rows ++ String newline EmptyString.

Definition odd_channel (url : string) : string :=
  lines_of (rows ++ [("f", "1:30", "Crossing again")])%list ++ String newline EmptyString.

Definition nan_channel (url : string) : string :=
  lines_of (("n", "nan", "A crossing") :: rows) ++ String newline EmptyString.

(** The third video of the channel, as an entry. *)
Definition crossing_c : entry := Samples.video "c" "90.5" "River CROSSING".

(** [str(Path(s))] on POSIX: the components of [s] that are neither empty
    nor [.], joined by one slash, after the root ([/], or [//] when [s]
    starts with exactly two slashes); [.] when nothing is left. *)
Fixpoint leading_slashes (s : string) : nat :=
  match s with
  | String "/" rest => S (leading_slashes rest)
  | _ => O
  end.

Definition path_str (s : string) : string :=
  let root :=
    match leading_slashes s with
    | O => EmptyString
    | 2%nat => "//"
    | _ => "/"
    end in
  let parts :=
    List.filter (fun part => negb (String.eqb part EmptyString || String.eqb part "."))
      (split_on "/" s) in
  let body := String.concat "/" parts in
  if String.eqb root EmptyString && String.eqb body EmptyString then "." else root ++ body.

Definition blank : console := {| stdout := []; processes := []; created := [] |}.

Definition plain (a_download : bool) (a_max : option Z) (a_shorts : bool)
    : DownloadCmd.args :=
  {| DownloadCmd.url := "https://www.youtube.com/@rivers";
     DownloadCmd.keywords := ["crossing"];
     DownloadCmd.download := a_download;
     DownloadCmd.max := a_max;
     DownloadCmd.output := "./downloads";
     DownloadCmd.resolution := "1080";
     DownloadCmd.shorts := a_shorts;
     DownloadCmd.only_shorts := false |}.

Abbreviation cmd_download flat_playlist :=
  (DownloadCmd.cmd_download Runtime.float Runtime.lower strip flat_playlist path_str).

(** A transcription whose text is ["hello"], and a rendering of JSON values
    that is of no account here. *)
Definition hello (transcription : Transcribe.loc) : result string := Ok "hello".

Definition dump (v : Transcribe.value) : string * option exn := ("{...}", None).

Abbreviation write_transcripts :=
  (Transcripts.write_transcripts Samples.abspath hello dump).

End Fixtures.

(** * Properties *)

Import Py.

(** ** Numbers *)

Lemma num_compare_nan (a b : number) :
  num_compare a b = None <-> is_nan a = true \/ is_nan b = true.
Proof.
  unfold num_compare, is_nan.
  destruct (num_ext a), (num_ext b); split; intros H;
    try discriminate; try reflexivity; auto;
    destruct H as [H|H]; discriminate.
Qed.

(** Away from NaN, [not (a <= b)] is [a > b]. *)
Lemma num_le_false_gt (a b : number) :
  num_le a b = false -> is_nan a = true \/ is_nan b = true \/ num_gt a b = true.
Proof.
  unfold num_le, num_gt. intros H.
  destruct (num_compare a b) as [[]|] eqn:E; try discriminate; auto.
  apply num_compare_nan in E. tauto.
Qed.

Lemma num_gt_false_le (a b : number) :
  num_gt a b = false -> is_nan a = true \/ is_nan b = true \/ num_le a b = true.
Proof.
  unfold num_le, num_gt. intros H.
  destruct (num_compare a b) as [[]|] eqn:E; try discriminate; auto.
  apply num_compare_nan in E. tauto.
Qed.

Lemma num_gt_not_nan (a b : number) : num_gt a b = true -> is_nan a = false.
Proof.
  unfold num_gt. destruct (num_compare a b) eqn:E; [|discriminate].
  intros _. destruct (is_nan a) eqn:Ha; [|reflexivity].
  assert (num_compare a b = None) by (apply num_compare_nan; auto). congruence.
Qed.

(** ** filter_videos *)

Section FilterFacts.
Import Download.

Context (float_of_str : string -> option spec_float).
Context (str_lower : string -> string).

Local Abbreviation parse_duration := (parse_duration float_of_str).
Local Abbreviation keeps := (keeps float_of_str str_lower).
Local Abbreviation filter_videos := (filter_videos float_of_str str_lower).

(** Every entry of the result went through the loop body to
    [result.append]. *)
Lemma filter_videos_kept videos f r :
  filter_videos videos f = Ok r -> Forall (fun v => keeps f v = Ok true) r.
Proof.
  revert r. induction videos as [|v rest IH]; intros r; simpl.
  - intros [= <-]. constructor.
  - destruct (keeps f v) as [keep|] eqn:Hk; simpl; [|discriminate].
    destruct (Download.filter_videos _ _ rest f) as [r'|]; simpl; [|discriminate].
    intros [= <-]. specialize (IH r' eq_refl).
    destruct keep; [constructor|]; assumption.
Qed.

Lemma filter_videos_all_kept videos f :
  Forall (fun v => keeps f v = Ok true) videos -> filter_videos videos f = Ok videos.
Proof.
  induction 1 as [|v rest Hv _ IH]; simpl; [reflexivity|].
  rewrite Hv. simpl. rewrite IH. reflexivity.
Qed.

(** Two filter dictionaries that decide every entry alike filter alike. *)
Lemma filter_videos_ext videos f g :
  (forall v, keeps f v = keeps g v) -> filter_videos videos f = filter_videos videos g.
Proof.
  intros H. induction videos as [|v rest IH]; simpl; [reflexivity|].
  rewrite H, IH. reflexivity.
Qed.

Lemma keeps_true_inv f v :
  keeps f v = Ok true ->
  exists d, parse_duration v = Ok d
    /\ below_min f d = false /\ above_max f d = false
    /\ misses_keyword str_lower f v = false.
Proof.
  unfold Download.keeps. destruct (parse_duration v) as [d|]; simpl; [|discriminate].
  destruct (below_min f d) eqn:Hmin; [discriminate|].
  destruct (above_max f d) eqn:Hmax; [discriminate|].
  destruct (misses_keyword str_lower f v) eqn:Hkw; [discriminate|].
  intros _. exists d. auto.
Qed.

Lemma num_gt_zero_truthy (m : number) : num_gt m (NInt 0) = true -> truthy m = true.
Proof.
  destruct m as [z|[]]; try reflexivity; try discriminate.
  unfold num_gt, num_compare, fin_compare; simpl num_ext; cbv iota beta.
  change (0 - Z.min 0 0) with 0. change (2 ^ 0) with 1.
  rewrite Z.mul_1_r, Z.mul_0_l.
  destruct (Z.compare_spec z 0); try discriminate.
  intros _. apply negb_true_iff, Z.eqb_neq. lia.
Qed.

(** C1 (amended): every entry of the result of [filter_videos] has a
    duration that parses (with ["NA"] and parse failures read as 0) and
    that is NaN or strictly greater than [min_duration] when
    [min_duration > 0]; that is NaN or at most [max_duration] when
    [max_duration] is set to a number other than zero and NaN; and its
    lower-cased title contains every lower-cased keyword. *)
Theorem filter_videos_included videos f r v :
  filter_videos videos f = Ok r -> v ∈ r ->
  exists d, parse_duration v = Ok d
    /\ (forall m, min_duration f = Some m -> num_gt m (NInt 0) = true ->
          is_nan d = true \/ num_gt d m = true)
    /\ (forall m, max_duration f = Some m -> truthy m = true ->
          is_nan d = true \/ is_nan m = true \/ num_le d m = true)
    /\ (forall kws kw, keywords f = Some kws -> kw ∈ kws ->
          str_in (str_lower kw) (str_lower (default EmptyString (v !! "title"))) = true).
Proof.
  intros Hr Hv. apply filter_videos_kept in Hr.
  rewrite Forall_forall in Hr. apply Hr in Hv. clear Hr.
  apply keeps_true_inv in Hv as (d & Hd & Hmin & Hmax & Hkw).
  exists d. split; [exact Hd|]. split; [|split].
  - intros m Hm Hpos. unfold below_min in Hmin. rewrite Hm in Hmin. simpl in Hmin.
    rewrite (num_gt_zero_truthy m Hpos) in Hmin. simpl in Hmin.
    destruct (num_le_false_gt _ _ Hmin) as [H|[H|H]]; auto.
    apply num_gt_not_nan in Hpos. congruence.
  - intros m Hm Ht. unfold above_max in Hmax. rewrite Hm, Ht in Hmax. simpl in Hmax.
    apply num_gt_false_le in Hmax. exact Hmax.
  - intros kws kw Hk Hin. unfold misses_keyword in Hkw. rewrite Hk in Hkw.
    destruct kws as [|kw0 kws']; [inversion Hin|].
    apply negb_false_iff in Hkw. rewrite forallb_forall in Hkw.
    apply Hkw. apply list_elem_of_In. exact Hin.
Qed.

(** C2: with [min_duration = 0], no [max_duration] and an empty keyword
    list, [filter_videos] returns the list of video entries it was given,
    in the same order.  The input is a value here, so it cannot be altered;
    the source never assigns to [videos] or to an entry. *)
Theorem filter_videos_no_filter videos :
  Forall (fun v : entry => is_Some (v !! "duration")) videos ->
  filter_videos videos
    {| keywords := Some []; min_duration := Some (NInt 0); max_duration := None |}
  = Ok videos.
Proof.
  intros H. apply filter_videos_all_kept.
  eapply Forall_impl; [exact H|]. intros v [d Hd]. simpl.
  unfold Download.keeps, Download.parse_duration. rewrite Hd.
  destruct (String.eqb d "NA"); [reflexivity|].
  destruct (float_of_str d); reflexivity.
Qed.

(** C3: filtering the result of [filter_videos] again with the same
    filters changes nothing (and when the first pass raises, so does the
    whole expression). *)
Theorem filter_videos_idempotent videos f :
  (let* r := filter_videos videos f in filter_videos r f) = filter_videos videos f.
Proof.
  destruct (filter_videos videos f) as [r|e] eqn:Hr; simpl; [|reflexivity].
  apply filter_videos_all_kept. eapply filter_videos_kept. exact Hr.
Qed.

(** C9: a [max_duration] that is false as a truth value (0, 0.0) filters
    like an absent one: the maximum check is skipped whatever the
    durations. *)
Theorem filter_videos_max_falsy videos kws min_dur m :
  truthy m = false ->
  filter_videos videos
    {| keywords := kws; min_duration := min_dur; max_duration := Some m |}
  = filter_videos videos
    {| keywords := kws; min_duration := min_dur; max_duration := None |}.
Proof.
  intros Hm. apply filter_videos_ext. intros v.
  unfold Download.keeps, above_max; simpl. rewrite Hm. reflexivity.
Qed.

End FilterFacts.

(** *** filter_videos on concrete lists *)

Module FilterExamples.
Import Download Samples.

Example filter_videos_min_60 :
  filter_ascii [video "a" "45" "Foo"; video "b" "NA" "Bar"] full_videos = Ok [].
Proof. vm_compute. reflexivity. Qed.

Example filter_videos_short_clip :
  filter_ascii [video "a" "5" "clip"]
    {| keywords := None; min_duration := Some (NInt 0); max_duration := Some (NInt 60) |}
  = Ok [video "a" "5" "clip"].
Proof. vm_compute. reflexivity. Qed.

Example filter_videos_missing_duration :
  filter_ascii [{[ "id" := "a"; "title" := "Foo" ]}] full_videos
  = Raise (KeyError "duration").
Proof. vm_compute. reflexivity. Qed.

Lemma filter_videos_included_witness :
  exists d, duration_ascii (video "c" "90.5" "River CROSSING") = Ok d
    /\ (forall m, min_duration crossing = Some m -> num_gt m (NInt 0) = true ->
          is_nan d = true \/ num_gt d m = true)
    /\ (forall m, max_duration crossing = Some m -> truthy m = true ->
          is_nan d = true \/ is_nan m = true \/ num_le d m = true)
    /\ (forall kws kw, keywords crossing = Some kws -> kw ∈ kws ->
          str_in (Runtime.lower kw)
            (Runtime.lower (default EmptyString (video "c" "90.5" "River CROSSING" !! "title"))) = true).
Proof.
  apply (filter_videos_included Runtime.float Runtime.lower listing crossing
           [video "c" "90.5" "River CROSSING"]).
  - vm_compute. reflexivity.
  - apply list_elem_of_here.
Defined.

(** C1 as stated fails: with [max_duration] set to 0 the clip of 5 seconds
    is in the result, and 5 is not at most 0. *)
Lemma filter_videos_included_counterexample :
  filter_ascii [clip] max_zero = Ok [clip]
  /\ duration_ascii clip = Ok (NFloat seconds_5)
  /\ max_duration max_zero = Some (NInt 0)
  /\ num_le (NFloat seconds_5) (NInt 0) = false
  /\ ~ (forall videos f r v,
          filter_ascii videos f = Ok r -> v ∈ r ->
          exists d, duration_ascii v = Ok d
            /\ (forall m, min_duration f = Some m -> num_gt m (NInt 0) = true ->
                  num_gt d m = true)
            /\ (forall m, max_duration f = Some m -> num_le d m = true)
            /\ (forall kws kw, keywords f = Some kws -> kw ∈ kws ->
                  str_in (Runtime.lower kw)
                    (Runtime.lower (default EmptyString (v !! "title"))) = true)).
Proof.
  assert (Hrun : filter_ascii [clip] max_zero = Ok [clip]) by (vm_compute; reflexivity).
  assert (Hdur : duration_ascii clip = Ok (NFloat seconds_5)) by (vm_compute; reflexivity).
  repeat split; try assumption; try reflexivity.
  intros H.
  destruct (H [clip] max_zero [clip] clip Hrun (list_elem_of_here _ _))
    as (d & Hd & _ & Hmax & _).
  specialize (Hmax (NInt 0) eq_refl).
  rewrite Hdur in Hd. injection Hd as <-. vm_compute in Hmax. discriminate Hmax.
Qed.

(** A duration that reads as NaN passes both checks, every comparison with
    it being false. *)
Example filter_videos_nan :
  filter_ascii [video "a" "nan" "clip"] crossing_none = Ok [video "a" "nan" "clip"].
Proof. vm_compute. reflexivity. Qed.

Lemma filter_videos_no_filter_witness :
  filter_ascii listing
    {| keywords := Some []; min_duration := Some (NInt 0); max_duration := None |}
  = Ok listing.
Proof.
  apply (filter_videos_no_filter Runtime.float Runtime.lower listing).
  repeat constructor; vm_compute; eauto.
Defined.

Lemma filter_videos_max_falsy_witness :
  filter_ascii listing
    {| keywords := Some ["crossing"]; min_duration := None; max_duration := Some (NInt 0) |}
  = filter_ascii listing
    {| keywords := Some ["crossing"]; min_duration := None; max_duration := None |}.
Proof.
  apply (filter_videos_max_falsy Runtime.float Runtime.lower listing
           (Some ["crossing"]) None (NInt 0)).
  reflexivity.
Defined.

End FilterExamples.

(** ** format_duration *)

Module FormatFacts.
Import Download Spec.

Lemma string_length_app (a b : string) :
  String.length (a ++ b) = (String.length a + String.length b)%nat.
Proof. induction a as [|c a IH]; simpl; [reflexivity|]. rewrite IH. reflexivity. Qed.

Lemma all_digits_app (a b : string) :
  all_digits (a ++ b) = all_digits a && all_digits b.
Proof.
  induction a as [|c a IH]; simpl; [reflexivity|].
  rewrite IH, andb_assoc. reflexivity.
Qed.

Lemma uint_all_digits (u : uint) : all_digits (NilEmpty.string_of_uint u) = true.
Proof. induction u; simpl; auto. Qed.

Lemma uint_length (u : uint) :
  String.length (NilEmpty.string_of_uint u) = nb_digits u.
Proof. induction u; simpl; auto. Qed.

Lemma decimal_all_digits (n : N) : all_digits (decimal n) = true.
Proof.
  unfold decimal, NilZero.string_of_uint.
  destruct (N.to_uint n) eqn:E; try reflexivity; rewrite <- E at 1;
    rewrite E; apply uint_all_digits.
Qed.

Lemma decimal_length_pos (n : N) : (1 <= String.length (decimal n))%nat.
Proof.
  unfold decimal, NilZero.string_of_uint.
  destruct (N.to_uint n); simpl; lia.
Qed.

(** A number has a single digit exactly when it is below ten. *)
Lemma decimal_short (n : N) :
  (String.length (decimal n) <? 2)%nat = (n <? 10)%N.
Proof.
  destruct (N.ltb_spec n 10) as [Hlt|Hge].
  - assert (Hall : forallb (fun k => (String.length (decimal (N.of_nat k)) <? 2)%nat)
                     (seq 0 10) = true) by (vm_compute; reflexivity).
    rewrite forallb_forall in Hall.
    specialize (Hall (N.to_nat n)). rewrite N2Nat.id in Hall.
    apply Hall, in_seq. lia.
  - apply Nat.ltb_ge.
    pose proof (DecimalN.Unsigned.of_to n) as Hn.
    unfold decimal, NilZero.string_of_uint.
    destruct (N.to_uint n) as [|u|u|u|u|u|u|u|u|u|u] eqn:E;
      try (exfalso; cbn in Hn; lia);
      destruct u; simpl; try lia; exfalso; cbn in Hn; lia.
Qed.

Lemma format_02d_zero_padded (z : Z) : 0 <= z -> format_02d z = zero_padded z.
Proof.
  intros Hz. unfold format_02d, zero_padded.
  destruct (Z.ltb_spec z 0) as [|_]; [lia|]. cbv zeta.
  rewrite decimal_short.
  destruct (N.ltb_spec (Z.to_N z) 10), (Z.ltb_spec z 10); try reflexivity; lia.
Qed.

Lemma zero_padded_digits (z : Z) : all_digits (zero_padded z) = true.
Proof.
  unfold zero_padded. destruct (z <? 10); [|apply decimal_all_digits].
  rewrite all_digits_app, decimal_all_digits. reflexivity.
Qed.

Lemma zero_padded_length (z : Z) : 0 <= z -> (2 <= String.length (zero_padded z))%nat.
Proof.
  intros Hz. unfold zero_padded. destruct (Z.ltb_spec z 10).
  - rewrite string_length_app. pose proof (decimal_length_pos (Z.to_N z)). simpl. lia.
  - pose proof (decimal_short (Z.to_N z)) as Hs.
    destruct (N.ltb_spec (Z.to_N z) 10); [lia|]. apply Nat.ltb_ge in Hs. exact Hs.
Qed.

(** The seconds field has exactly two digits. *)
Lemma zero_padded_length_secs (z : Z) :
  0 <= z < 60 -> String.length (zero_padded z) = 2%nat.
Proof.
  intros Hz.
  assert (Hall : forallb (fun k => (String.length (zero_padded (Z.of_nat k)) =? 2)%nat)
                   (seq 0 60) = true) by (vm_compute; reflexivity).
  rewrite forallb_forall in Hall.
  specialize (Hall (Z.to_nat z)). rewrite Z2Nat.id in Hall by lia.
  apply Nat.eqb_eq, Hall, in_seq. lia.
Qed.

Lemma split_first_digits (a b : string) :
  all_digits a = true -> split_first ":" (a ++ ":" ++ b) = Some (a, b).
Proof.
  induction a as [|c a IH]; simpl; [reflexivity|].
  intros H. apply andb_true_iff in H as [Hc Ha].
  rewrite (IH Ha).
  destruct (Ascii.eqb_spec c ":") as [->|_]; [discriminate Hc|reflexivity].
Qed.

Lemma zero_padded_matches (mins secs : Z) :
  0 <= mins -> 0 <= secs < 60 ->
  matches_mmss (zero_padded mins ++ ":" ++ zero_padded secs) = true.
Proof.
  intros Hm Hs. unfold matches_mmss.
  rewrite split_first_digits by apply zero_padded_digits.
  rewrite !zero_padded_digits, (zero_padded_length_secs secs Hs).
  pose proof (zero_padded_length mins Hm) as H. apply Nat.leb_le in H.
  rewrite H. reflexivity.
Qed.

(** On a duration that is not negative, [int] is [floor]. *)
Lemma int_of_floor (d : number) (m e : Z) :
  num_ext d = EFin m e -> 0 <= m -> int_of d = Ok (floor m e) /\ 0 <= floor m e.
Proof.
  intros Hd Hm.
  assert (Hfl : (if 0 <=? e then m * 2 ^ e else Z.quot m (2 ^ (- e))) = floor m e
                /\ 0 <= floor m e).
  { unfold floor. destruct (Z.leb_spec 0 e).
    - split; [reflexivity|]. apply Z.mul_nonneg_nonneg; [lia|]. apply Z.pow_nonneg. lia.
    - assert (0 < 2 ^ (- e)) by (apply Z.pow_pos_nonneg; lia).
      split; [apply Z.quot_div_nonneg; lia|]. apply Z.div_pos; lia. }
  destruct Hfl as [Heq Hpos]. split; [|exact Hpos].
  destruct d as [z|f]; simpl in Hd.
  - injection Hd as <- <-. simpl. f_equal. unfold floor. simpl. lia.
  - unfold int_of. rewrite Hd, Heq. reflexivity.
Qed.

(** C4: for every duration [d] (a finite number that is not negative),
    [format_duration d] is the zero-padded [floor(d) // 60], a colon and the
    zero-padded [floor(d) % 60]; the minutes are not reduced modulo
    anything, and the text matches [\d{2,}:\d{2}].  In particular
    [format_duration(125.9)] is ["02:05"]. *)
Theorem format_duration_mmss :
  (forall (d : number) (m e : Z),
     num_ext d = EFin m e -> 0 <= m ->
     let n := floor m e in
     let text := zero_padded (n / 60) ++ ":" ++ zero_padded (n mod 60) in
     format_duration d = Ok text /\ matches_mmss text = true)
  /\ format_duration (NFloat Samples.seconds_125_9) = Ok "02:05".
Proof.
  split; [|vm_compute; reflexivity].
  intros d m e Hd Hm n text.
  destruct (int_of_floor d m e Hd Hm) as [Hint Hpos]. fold n in Hint, Hpos.
  assert (Hmins : 0 <= n / 60) by (apply Z.div_pos; lia).
  assert (Hsecs : 0 <= n mod 60 < 60) by (apply Z.mod_pos_bound; lia).
  split.
  - unfold format_duration. rewrite Hint. simpl.
    rewrite !format_02d_zero_padded by lia. reflexivity.
  - apply zero_padded_matches; assumption.
Qed.

Example float_125_9 : Runtime.float "125.9" = Some Samples.seconds_125_9.
Proof. vm_compute. reflexivity. Qed.

Lemma format_duration_mmss_witness :
  format_duration (NFloat Samples.seconds_125_9)
  = Ok (zero_padded (floor 8859424891967898 (-46) / 60) ++ ":"
        ++ zero_padded (floor 8859424891967898 (-46) mod 60))
  /\ matches_mmss (zero_padded (floor 8859424891967898 (-46) / 60) ++ ":"
                   ++ zero_padded (floor 8859424891967898 (-46) mod 60)) = true.
Proof.
  apply (proj1 format_duration_mmss (NFloat Samples.seconds_125_9)
           8859424891967898 (-46)).
  - reflexivity.
  - lia.
Defined.

(** Minutes are not wrapped at the hour. *)
Example format_duration_long : format_duration (NInt 6000) = Ok "100:00".
Proof. vm_compute. reflexivity. Qed.

(** Outside the durations: a negative number keeps its sign, NaN raises. *)
Example format_duration_negative : format_duration (NInt (-1)) = Ok "-1:59".
Proof. vm_compute. reflexivity. Qed.

Example format_duration_nan : format_duration (NFloat S754_nan) = Raise ValueError.
Proof. reflexivity. Qed.

End FormatFacts.

(** ** The format-selection expression of download_videos *)

Module FmtFacts.
Import Download Spec.

Lemma string_app_cons (x : ascii) (a b : string) : String x a ++ b = String x (a ++ b).
Proof. reflexivity. Qed.

Lemma string_app_assoc (a b c : string) : (a ++ b) ++ c = a ++ b ++ c.
Proof.
  induction a as [|x a IH]; [reflexivity|].
  rewrite !string_app_cons, IH. reflexivity.
Qed.

Lemma slash_free_app (a b : string) :
  slash_free (a ++ b) = slash_free a && slash_free b.
Proof.
  induction a as [|x a IH]; simpl; [reflexivity|].
  rewrite IH, andb_assoc. reflexivity.
Qed.

Lemma digits_slash_free (r : string) : all_digits r = true -> slash_free r = true.
Proof.
  induction r as [|c r IH]; simpl; [reflexivity|].
  intros H. apply andb_true_iff in H as [Hc Hr]. rewrite (IH Hr), andb_true_r.
  destruct (Ascii.eqb_spec c "/") as [->|_]; [discriminate Hc|reflexivity].
Qed.

(** A tier that holds no slash ends at the next slash. *)
Lemma tiers_tier (a s : string) :
  slash_free a = true -> tiers (a ++ "/" ++ s) = a :: tiers s.
Proof.
  induction a as [|c a IH]; simpl; [reflexivity|].
  intros H. apply andb_true_iff in H as [Hc Ha].
  apply negb_true_iff in Hc. rewrite Hc.
  change (tiers (a ++ String "/" s)) with (tiers (a ++ "/" ++ s)).
  rewrite (IH Ha). reflexivity.
Qed.

Lemma tiers_last (a : string) : slash_free a = true -> tiers a = [a].
Proof.
  induction a as [|c a IH]; simpl; [reflexivity|].
  intros H. apply andb_true_iff in H as [Hc Ha].
  apply negb_true_iff in Hc. rewrite Hc, (IH Ha). reflexivity.
Qed.

Lemma prefix_app (x b : string) : String.prefix x (x ++ b) = true.
Proof.
  induction x as [|c x IH]; simpl; [destruct b; reflexivity|].
  destruct (ascii_dec c c); [exact IH|contradiction].
Qed.

Lemma str_in_here (x s : string) : String.prefix x s = true -> str_in x s = true.
Proof. destruct s; simpl; intros ->; reflexivity. Qed.

Lemma str_in_app (x a b : string) : str_in x (a ++ x ++ b) = true.
Proof.
  induction a as [|c a IH].
  - apply str_in_here. change (EmptyString ++ x ++ b) with (x ++ b). apply prefix_app.
  - rewrite string_app_cons. simpl. rewrite IH. apply orb_true_r.
Qed.

Lemma numeric_not_best (r : string) : numeric r = true -> String.eqb r "best" = false.
Proof.
  unfold numeric. intros H. apply andb_true_iff in H as [Hd _].
  apply String.eqb_neq. intros ->. discriminate Hd.
Qed.

(** C5: for a numeric resolution [r] the format expression has three
    alternatives, each of which holds the bound [height<=r]; for ["best"] it
    is the fixed chain that asks for an m4a audio track first, then any
    audio, then the best single file, and it names no height. *)
Theorem download_videos_fmt_tiers :
  (forall r : string,
     numeric r = true ->
     tiers (download_videos_fmt r)
     = ["bestvideo[height<=" ++ r ++ "]+bestaudio[ext=m4a]";
        "bestvideo[height<=" ++ r ++ "]+bestaudio";
        "best[height<=" ++ r ++ "]"]
     /\ Forall (fun t => str_in ("height<=" ++ r) t = true)
          (tiers (download_videos_fmt r)))
  /\ tiers (download_videos_fmt "best")
     = ["bestvideo+bestaudio[ext=m4a]"; "bestvideo+bestaudio"; "best"]
  /\ str_in "height" (download_videos_fmt "best") = false.
Proof.
  split; [|split; vm_compute; reflexivity].
  intros r Hr.
  assert (Hfree : slash_free r = true).
  { apply digits_slash_free. unfold numeric in Hr.
    apply andb_true_iff in Hr as [Hd _]. exact Hd. }
  assert (Htiers : tiers (download_videos_fmt r)
     = ["bestvideo[height<=" ++ r ++ "]+bestaudio[ext=m4a]";
        "bestvideo[height<=" ++ r ++ "]+bestaudio";
        "best[height<=" ++ r ++ "]"]).
  { unfold download_videos_fmt. rewrite (numeric_not_best r Hr).
    transitivity (tiers (("bestvideo[height<=" ++ r ++ "]+bestaudio[ext=m4a]") ++ "/"
                         ++ ("bestvideo[height<=" ++ r ++ "]+bestaudio") ++ "/"
                         ++ ("best[height<=" ++ r ++ "]"))).
    { f_equal. rewrite !string_app_assoc. reflexivity. }
    rewrite !tiers_tier, tiers_last; try reflexivity;
      rewrite !slash_free_app, Hfree; reflexivity. }
  split; [exact Htiers|]. rewrite Htiers.
  repeat constructor.
  - change ("bestvideo[height<=" ++ r ++ "]+bestaudio[ext=m4a]")
      with ("bestvideo[" ++ ("height<=" ++ r) ++ "]+bestaudio[ext=m4a]").
    apply str_in_app.
  - change ("bestvideo[height<=" ++ r ++ "]+bestaudio")
      with ("bestvideo[" ++ ("height<=" ++ r) ++ "]+bestaudio").
    apply str_in_app.
  - change ("best[height<=" ++ r ++ "]")
      with ("best[" ++ ("height<=" ++ r) ++ "]").
    apply str_in_app.
Qed.

Lemma download_videos_fmt_tiers_witness :
  tiers (download_videos_fmt "720")
  = ["bestvideo[height<=" ++ "720" ++ "]+bestaudio[ext=m4a]";
     "bestvideo[height<=" ++ "720" ++ "]+bestaudio";
     "best[height<=" ++ "720" ++ "]"]
  /\ Forall (fun t => str_in ("height<=" ++ "720") t = true)
       (tiers (download_videos_fmt "720")).
Proof.
  apply (proj1 download_videos_fmt_tiers "720"). reflexivity.
Defined.

(** The default of the command line, [-r 1080]. *)
Example download_videos_fmt_1080 :
  download_videos_fmt "1080"
  = "bestvideo[height<=1080]+bestaudio[ext=m4a]/bestvideo[height<=1080]+bestaudio/best[height<=1080]".
Proof. reflexivity. Qed.

End FmtFacts.

(** ** The local-file branch of cmd_transcribe *)

Module CliFacts.
Import Cli.

Lemma substring_whole (s : string) : String.substring 0 (String.length s) s = s.
Proof. induction s as [|c s IH]; simpl; [reflexivity|]. rewrite IH. reflexivity. Qed.

(** Cutting a string at an index inside it loses nothing. *)
Lemma slice_split (i : nat) (s : string) :
  (i <= String.length s)%nat -> slice_to i s ++ slice_from i s = s.
Proof.
  unfold slice_to, slice_from. revert i.
  induction s as [|c s IH]; intros i Hi; simpl in Hi.
  - destruct i; [reflexivity|lia].
  - destruct i as [|i].
    + change (String.substring 0 0 (String c s)) with EmptyString.
      rewrite Nat.sub_0_r, substring_whole. reflexivity.
    + change (String.substring 0 (S i) (String c s))
        with (String c (String.substring 0 i s)).
      change (String.substring (S i) (String.length (String c s) - S i) (String c s))
        with (String.substring i (String.length s - i) s).
      change (String c (String.substring 0 i s) ++ String.substring i (String.length s - i) s)
        with (String c (String.substring 0 i s ++ String.substring i (String.length s - i) s)).
      rewrite IH by lia. reflexivity.
Qed.

Lemma rfind_from_bound (c : ascii) (s : string) (i : nat) (found : option nat) (k : nat) :
  (forall j, found = Some j -> (j < i)%nat) ->
  rfind_from c s i found = Some k -> (k < i + String.length s)%nat.
Proof.
  revert i found. induction s as [|a s IH]; intros i found Hf; simpl.
  - intros H. apply Hf in H. lia.
  - intros H. apply IH in H; [lia|].
    intros j. destruct (Ascii.eqb a c); intros Hj.
    + injection Hj as <-. lia.
    + apply Hf in Hj. lia.
Qed.

Lemma rfind_bound (c : ascii) (s : string) (k : nat) :
  rfind c s = Some k -> (k < String.length s)%nat.
Proof.
  intros H. apply rfind_from_bound in H; [exact H|]. intros j Hj. discriminate Hj.
Qed.

(** [splitext] cuts its argument in two. *)
Lemma splitext_app (p : string) : fst (splitext p) ++ snd (splitext p) = p.
Proof.
  assert (Hnil : forall s : string, s ++ EmptyString = s).
  { induction s as [|c s IH]; [reflexivity|].
    change (String c s ++ EmptyString) with (String c (s ++ EmptyString)).
    rewrite IH. reflexivity. }
  unfold splitext.
  destruct (rfind "." p) as [dot|] eqn:Hdot; simpl; [|apply Hnil].
  destruct (_ && _); simpl; [|apply Hnil].
  apply slice_split. apply rfind_bound in Hdot. lia.
Qed.

(** *** The name of the copy *)

Lemma rfind_from_shift (c : ascii) (s : string) (i : nat) (found : option nat) :
  rfind_from c s i found
  = match rfind c s with
    | Some j => Some (i + j)%nat
    | None => found
    end.
Proof.
  unfold rfind. revert i found.
  induction s as [|a s IH]; intros i found; simpl; [reflexivity|].
  rewrite (IH (S i)), (IH 1%nat).
  destruct (rfind_from c s 0 None) as [j|].
  - f_equal. lia.
  - destruct (Ascii.eqb a c); [f_equal; lia|reflexivity].
Qed.

Lemma rfind_cons (c a : ascii) (s : string) :
  rfind c (String a s)
  = match rfind c s with
    | Some j => Some (S j)
    | None => if Ascii.eqb a c then Some O else None
    end.
Proof. unfold rfind at 1. simpl. rewrite rfind_from_shift. reflexivity. Qed.

Lemma rfind_slash_free (s : string) :
  Spec.slash_free s = true <-> rfind "/" s = None.
Proof.
  induction s as [|a s IH]; [split; reflexivity|].
  rewrite rfind_cons. simpl.
  destruct (rfind "/" s) as [j|].
  - split; [|discriminate]. intros H. apply andb_true_iff in H as [_ H].
    apply IH in H. discriminate H.
  - destruct (Ascii.eqb a "/"); simpl; [split; discriminate|].
    split; [reflexivity|]. intros _. apply IH. reflexivity.
Qed.

(** [basename] by recursion on the path: a path without a slash is its own
    base name, and the first character of any other path is not part of
    it. *)
Lemma basename_unfold (c : ascii) (p : string) :
  basename (String c p)
  = if Spec.slash_free (String c p) then String c p else basename p.
Proof.
  unfold basename. rewrite rfind_cons.
  destruct (rfind "/" p) as [j|] eqn:Hp.
  - assert (Hfree : Spec.slash_free p = false).
    { destruct (Spec.slash_free p) eqn:E; [|reflexivity].
      apply rfind_slash_free in E. congruence. }
    simpl. rewrite Hfree, andb_false_r. reflexivity.
  - apply rfind_slash_free in Hp. simpl. rewrite Hp, andb_true_r.
    destruct (Ascii.eqb c "/"); simpl; [|reflexivity].
    unfold slice_from. simpl. rewrite Nat.sub_0_r. apply substring_whole.
Qed.

Lemma basename_free (p : string) : Spec.slash_free p = true -> basename p = p.
Proof.
  intros H. unfold basename. apply rfind_slash_free in H. rewrite H. reflexivity.
Qed.

Lemma basename_slash_free (p : string) : Spec.slash_free (basename p) = true.
Proof.
  induction p as [|c p IH]; [reflexivity|].
  rewrite basename_unfold.
  destruct (Spec.slash_free (String c p)) eqn:E; [exact E|exact IH].
Qed.

Lemma basename_app_free (a f : string) :
  Spec.slash_free f = true -> basename (a ++ f) = basename a ++ f.
Proof.
  intros Hf. induction a as [|c a IH].
  - change (EmptyString ++ f) with f. apply basename_free. exact Hf.
  - change (String c a ++ f) with (String c (a ++ f)).
    rewrite !basename_unfold.
    change (String c (a ++ f)) with (String c a ++ f).
    rewrite FmtFacts.slash_free_app, Hf, andb_true_r.
    destruct (Spec.slash_free (String c a)); [reflexivity|exact IH].
Qed.

Lemma basename_dir (a : string) : basename (a ++ "/") = EmptyString.
Proof.
  induction a as [|c a IH]; [reflexivity|].
  change (String c a ++ "/") with (String c (a ++ "/")).
  rewrite basename_unfold.
  change (String c (a ++ "/")) with (String c a ++ "/").
  rewrite FmtFacts.slash_free_app, andb_false_r. exact IH.
Qed.

Lemma endswith_slash (a : string) :
  endswith a "/" = true -> exists a0, a = a0 ++ "/".
Proof.
  unfold endswith. induction a as [|c a IH]; [discriminate|].
  destruct a as [|c' a].
  - simpl. intros H. destruct (Ascii.eqb_spec c "/") as [->|]; [|discriminate H].
    exists EmptyString. reflexivity.
  - intros H. destruct IH as [a0 Ha0].
    + simpl in H |- *. rewrite Nat.sub_0_r. exact H.
    + exists (String c a0). rewrite Ha0. reflexivity.
Qed.

(** A file name joined to a directory is still the base name of the
    result. *)
Lemma basename_join (d f : string) :
  Spec.slash_free f = true -> basename (join d f) = f.
Proof.
  intros Hf. unfold join.
  assert (Hstart : startswith f "/" = false).
  { destruct f as [|c f]; [reflexivity|]. simpl in Hf.
    apply andb_true_iff in Hf as [Hc _].
    unfold startswith, String.prefix.
    destruct (ascii_dec "/" c) as [<-|_]; [discriminate Hc|reflexivity]. }
  rewrite Hstart.
  destruct (String.eqb_spec d EmptyString) as [->|_]; simpl.
  - apply basename_free. exact Hf.
  - destruct (endswith d "/") eqn:Hend.
    + apply endswith_slash in Hend as [d0 ->].
      rewrite basename_app_free, basename_dir by exact Hf. reflexivity.
    + change (d ++ String "/" f) with (d ++ "/" ++ f).
      rewrite <- FmtFacts.string_app_assoc.
      rewrite basename_app_free, basename_dir by exact Hf. reflexivity.
Qed.

Lemma slash_free_substring (n m : nat) (p : string) :
  Spec.slash_free p = true -> Spec.slash_free (String.substring n m p) = true.
Proof.
  revert n m. induction p as [|c p IH]; intros n m H.
  - destruct n, m; reflexivity.
  - simpl in H. apply andb_true_iff in H as [Hc Hp].
    destruct n as [|n]; [destruct m as [|m]|]; simpl; [reflexivity| |apply IH; exact Hp].
    rewrite Hc. apply IH. exact Hp.
Qed.

Lemma splitext_slash_free (p : string) :
  Spec.slash_free p = true -> Spec.slash_free (fst (splitext p)) = true.
Proof.
  intros H. unfold splitext.
  destruct (rfind "." p) as [dot|]; [|exact H].
  destruct (_ && _); [|exact H].
  apply slash_free_substring. exact H.
Qed.

(** The copy of [source] is named after its base name. *)
Lemma copy_name (source outdir : string) :
  basename (join outdir (fst (splitext (basename source)) ++ ".wav"))
  = fst (splitext (basename source)) ++ ".wav".
Proof.
  apply basename_join. rewrite FmtFacts.slash_free_app, andb_true_r.
  apply splitext_slash_free, basename_slash_free.
Qed.

(** *** The functions of [os.path] against the words of the specification *)

Lemma string_app_nil (s : string) : s ++ EmptyString = s.
Proof.
  induction s as [|c s IH]; [reflexivity|].
  rewrite FmtFacts.string_app_cons, IH. reflexivity.
Qed.

(** [basename] gives the file name: the path is a directory part, empty or
    ended by a slash, followed by it. *)
Lemma basename_file_name (p : string) : Spec.file_name_of p (basename p).
Proof.
  unfold Spec.file_name_of. induction p as [|c p (dir & Hp & Hfree & Hdir)].
  - exists EmptyString. auto.
  - rewrite basename_unfold. destruct (Spec.slash_free (String c p)) eqn:E.
    + exists EmptyString. auto.
    + exists (String c dir). split; [|split; [exact Hfree|right]].
      * rewrite FmtFacts.string_app_cons, <- Hp. reflexivity.
      * destruct Hdir as [->|[d ->]].
        -- change (EmptyString ++ basename p) with (basename p) in Hp.
           simpl in E. rewrite Hp, Hfree, andb_true_r in E.
           apply negb_false_iff in E. apply Ascii.eqb_eq in E. subst c.
           exists EmptyString. reflexivity.
        -- exists (String c d). reflexivity.
Qed.

Lemma rfind_dot_none (s : string) : rfind "." s = None -> Spec.dot_free s = true.
Proof.
  induction s as [|a s IH]; [reflexivity|].
  rewrite rfind_cons. destruct (rfind "." s) as [j|]; [discriminate|].
  destruct (Ascii.eqb a ".") eqn:E; [discriminate|].
  intros _. simpl. rewrite E. simpl. apply IH. reflexivity.
Qed.

(** The last dot of a string cuts it in two, and no dot follows it. *)
Lemma rfind_dot_some (s : string) (i : nat) :
  rfind "." s = Some i ->
  exists pre post,
    s = pre ++ String "." post /\ String.length pre = i /\ Spec.dot_free post = true.
Proof.
  revert i. induction s as [|a s IH]; intros i; [discriminate|].
  rewrite rfind_cons. destruct (rfind "." s) as [j|] eqn:Hs.
  - intros [= <-]. destruct (IH j eq_refl) as (pre & post & -> & <- & Hpost).
    exists (String a pre), post. auto.
  - destruct (Ascii.eqb_spec a ".") as [->|_]; [|discriminate].
    intros [= <-]. exists EmptyString, s. split; [reflexivity|].
    split; [reflexivity|]. apply rfind_dot_none. exact Hs.
Qed.

Lemma slice_to_app (pre s : string) : slice_to (String.length pre) (pre ++ s) = pre.
Proof.
  unfold slice_to. induction pre as [|c pre IH]; simpl.
  - destruct s; reflexivity.
  - rewrite ?FmtFacts.string_app_cons. simpl. rewrite IH. reflexivity.
Qed.

Lemma has_non_dot_app (pre s : string) :
  has_non_dot (pre ++ s) 0 (String.length pre) = negb (Spec.all_dots pre).
Proof.
  induction pre as [|c pre IH].
  - destruct s; reflexivity.
  - rewrite FmtFacts.string_app_cons. simpl. rewrite IH, negb_andb. reflexivity.
Qed.

Lemma drop_dots_app (pre s : string) :
  Spec.all_dots pre = true -> Spec.drop_dots (pre ++ s) = Spec.drop_dots s.
Proof.
  induction pre as [|c pre IH]; [reflexivity|].
  simpl. intros H. apply andb_true_iff in H as [Hc Hpre].
  rewrite ?FmtFacts.string_app_cons. simpl. rewrite Hc. apply IH. exact Hpre.
Qed.

Lemma dot_free_drop_dots (s : string) :
  Spec.dot_free s = true -> Spec.dot_free (Spec.drop_dots s) = true.
Proof.
  destruct s as [|c s]; [reflexivity|]. simpl. intros H.
  apply andb_true_iff in H as [Hc Hs]. apply negb_true_iff in Hc. rewrite Hc.
  simpl. rewrite Hc, Hs. reflexivity.
Qed.

(** [splitext] takes the extension off a file name as the specification
    says: from the last dot on, unless only dots come before it. *)
Lemma splitext_minus_extension (name : string) :
  Spec.slash_free name = true -> Spec.minus_extension name (fst (splitext name)).
Proof.
  intros Hfree. unfold Spec.minus_extension, splitext.
  apply rfind_slash_free in Hfree. rewrite Hfree.
  destruct (rfind "." name) as [dot|] eqn:Hdot.
  - apply rfind_dot_some in Hdot as (pre & post & -> & <- & Hpost).
    rewrite has_non_dot_app. change (0 <=? String.length pre)%nat with true.
    destruct (Spec.all_dots pre) eqn:Hpre; simpl.
    + exists EmptyString. split; [symmetry; apply string_app_nil|]. left.
      split; [reflexivity|]. rewrite drop_dots_app by exact Hpre. simpl.
      apply dot_free_drop_dots. exact Hpost.
    + rewrite slice_to_app. exists (String "." post). split; [reflexivity|].
      right. exists post. auto.
  - exists EmptyString. split; [symmetry; apply string_app_nil|]. left.
    split; [reflexivity|]. apply dot_free_drop_dots, rfind_dot_none. exact Hdot.
Qed.

Lemma startswith_slash_free (f : string) :
  Spec.slash_free f = true -> startswith f "/" = false.
Proof.
  destruct f as [|c f]; [reflexivity|]. intros Hf. simpl in Hf.
  apply andb_true_iff in Hf as [Hc _].
  unfold startswith, String.prefix.
  destruct (ascii_dec "/" c) as [<-|_]; [discriminate Hc|reflexivity].
Qed.

Lemma endswith_app_slash (d : string) : endswith (d ++ "/") "/" = true.
Proof.
  unfold endswith. induction d as [|c d IH]; [reflexivity|].
  rewrite FmtFacts.string_app_cons.
  destruct (d ++ "/") as [|c' s] eqn:E; [destruct d; discriminate E|].
  simpl in IH |- *. rewrite Nat.sub_0_r in *. exact IH.
Qed.

(** [join] puts a file name in a directory: after the directory and one
    slash, which a directory that ends in a slash already has. *)
Lemma join_inside (d f : string) :
  Spec.slash_free f = true -> Spec.inside d f (join d f).
Proof.
  intros Hf. unfold Spec.inside, join. rewrite (startswith_slash_free f Hf).
  destruct (String.eqb_spec d EmptyString) as [->|Hne]; simpl.
  - left. auto.
  - destruct (endswith d "/") eqn:Hend.
    + left. split; [right; apply endswith_slash; exact Hend|reflexivity].
    + right. split; [exact Hne|]. split; [|reflexivity].
      intros d0 ->. rewrite endswith_app_slash in Hend. discriminate Hend.
Qed.

(** The words of the specification say no more than these functions: the
    file name, the base name and the path they describe are the ones
    [basename], [splitext] and [join] compute. *)
Lemma file_name_of_basename (p name : string) :
  Spec.file_name_of p name -> name = basename p.
Proof.
  intros (dir & -> & Hfree & Hdir). rewrite basename_app_free by exact Hfree.
  destruct Hdir as [->|[d ->]]; [reflexivity|]. rewrite basename_dir. reflexivity.
Qed.

Lemma inside_join (d f p : string) :
  Spec.slash_free f = true -> Spec.inside d f p -> p = join d f.
Proof.
  intros Hf. unfold Spec.inside, join. rewrite (startswith_slash_free f Hf).
  intros [[Hdir ->]|(Hne & Hopen & ->)].
  - destruct Hdir as [->|[d0 ->]]; [reflexivity|].
    rewrite endswith_app_slash, orb_true_r. reflexivity.
  - destruct (String.eqb_spec d EmptyString) as [->|_]; [contradiction|]. simpl.
    destruct (endswith d "/") eqn:Hend; [|reflexivity].
    apply endswith_slash in Hend as [d0 ->]. destruct (Hopen d0 eq_refl).
Qed.

Lemma dot_free_app_dot (x y : string) : Spec.dot_free (x ++ String "." y) = false.
Proof.
  induction x as [|c x IH]; [reflexivity|].
  rewrite FmtFacts.string_app_cons. simpl. rewrite IH. apply andb_false_r.
Qed.

Lemma drop_dots_keeps_dot (pre post : string) :
  Spec.all_dots pre = false ->
  Spec.dot_free (Spec.drop_dots (pre ++ String "." post)) = false.
Proof.
  induction pre as [|c pre IH]; [discriminate|].
  rewrite FmtFacts.string_app_cons. simpl.
  destruct (Ascii.eqb c ".") eqn:Hc; simpl; [exact IH|].
  intros _. rewrite Hc. simpl. apply dot_free_app_dot.
Qed.

(** A string is cut at its last dot in one way only. *)
Lemma last_dot_unique (b1 e1 b2 e2 : string) :
  b1 ++ String "." e1 = b2 ++ String "." e2 ->
  Spec.dot_free e1 = true -> Spec.dot_free e2 = true -> b1 = b2.
Proof.
  revert b2. induction b1 as [|c b1 IH]; intros [|c' b2] H H1 H2.
  - reflexivity.
  - rewrite FmtFacts.string_app_cons in H. injection H as _ ->.
    rewrite dot_free_app_dot in H1. discriminate H1.
  - rewrite FmtFacts.string_app_cons in H. injection H as _ <-.
    rewrite dot_free_app_dot in H2. discriminate H2.
  - rewrite !FmtFacts.string_app_cons in H. injection H as -> H.
    f_equal. exact (IH b2 H H1 H2).
Qed.

Lemma minus_extension_splitext (name base : string) :
  Spec.slash_free name = true ->
  Spec.minus_extension name base -> base = fst (splitext name).
Proof.
  intros Hfree (ext & Hname & Hext). unfold splitext.
  apply rfind_slash_free in Hfree. rewrite Hfree.
  destruct Hext as [[-> Hnone]|(e & -> & He & Hbase)].
  - rewrite string_app_nil in Hname. subst base.
    destruct (rfind "." name) as [dot|] eqn:Hdot; [|reflexivity].
    apply rfind_dot_some in Hdot as (pre & post & -> & <- & Hpost).
    rewrite has_non_dot_app. destruct (Spec.all_dots pre) eqn:Hpre.
    + rewrite andb_false_r. reflexivity.
    + rewrite (drop_dots_keeps_dot pre post Hpre) in Hnone. discriminate Hnone.
  - destruct (rfind "." name) as [dot|] eqn:Hdot.
    + apply rfind_dot_some in Hdot as (pre & post & Hcut & <- & Hpost).
      rewrite Hname in Hcut.
      assert (Hsame : base = pre) by exact (last_dot_unique _ _ _ _ Hcut He Hpost).
      subst pre. rewrite Hname, has_non_dot_app, Hbase. simpl.
      change (0 <=? String.length base)%nat with true. simpl.
      symmetry. apply slice_to_app.
    + apply rfind_dot_none in Hdot. rewrite Hname, dot_free_app_dot in Hdot.
      discriminate Hdot.
Qed.

Section Guard.

Context (str_lower : string -> string).
Context (abspath : string -> string).
Context (download_audio_with_ytdlp : string -> string -> world -> result outcome * world).
Context (transcribe_and_write : args -> string -> string -> world -> result Z * world).

Local Abbreviation cmd_transcribe :=
  (cmd_transcribe str_lower abspath download_audio_with_ytdlp transcribe_and_write).


End Guard.


(** The example of the specification: [notes.mp3] exists but is no WAV file. *)
Example cmd_transcribe_notes_mp3 :
  fst (Samples.run (Samples.transcribe "notes.mp3") Samples.home) = Ok 1
  /\ files (snd (Samples.run (Samples.transcribe "notes.mp3") Samples.home)) = files Samples.home.
Proof. vm_compute. split; reflexivity. Qed.

Example cmd_transcribe_missing :
  Samples.run (Samples.transcribe "absent.wav") Samples.home
  = (Ok 1, print_stderr "Error: file not found: absent.wav" Samples.home).
Proof. vm_compute. reflexivity. Qed.

(** An accepted file is copied under the lower-case extension and the two
    transcripts take its base name. *)
Example cmd_transcribe_talk :
  Cli.local_source Runtime.lower Samples.abspath (Samples.transcribe "talk.WAV")
    Samples.home
  = (Ok (Proceed "transcriptions/talk.wav" "talk"),
     (Cli.local_source Runtime.lower Samples.abspath (Samples.transcribe "talk.WAV")
        Samples.home).2)
  /\ fst (Samples.run (Samples.transcribe "talk.WAV") Samples.home) = Ok 0
  /\ files (snd (Samples.run (Samples.transcribe "talk.WAV") Samples.home))
     !! "/home/user/transcriptions/talk.wav" = Some "RIFF-talk"
  /\ is_Some (files (snd (Samples.run (Samples.transcribe "talk.WAV") Samples.home))
              !! "/home/user/transcriptions/talk.txt")
  /\ is_Some (files (snd (Samples.run (Samples.transcribe "talk.WAV") Samples.home))
              !! "/home/user/transcriptions/talk.json").
Proof. vm_compute. repeat split; eauto. Qed.

(** A file already in the output directory is not copied onto itself: the
    command goes on where [shutil.copyfile] would raise. *)
Example cmd_transcribe_in_place :
  Cli.local_source Runtime.lower Samples.abspath
    (Samples.transcribe "transcriptions/done.wav") Samples.home
  = (Ok (Proceed "transcriptions/done.wav" "done"),
     Cli.makedirs Samples.abspath "transcriptions" Samples.home)
  /\ fst (Cli.copyfile Samples.abspath "transcriptions/done.wav" "transcriptions/done.wav"
            Samples.home)
     = Raise (OtherError "SameFileError").
Proof. vm_compute. split; reflexivity. Qed.

(** A file name that is an extension and nothing else keeps it. *)
Example cmd_transcribe_dot_wav :
  fst (splitext (basename "audio/.wav")) = ".wav"
  /\ fst (splitext (basename "audio/take.2.wav")) = "take.2".
Proof. split; reflexivity. Qed.

End CliFacts.

(** ** to_jsonable *)

Module JsonableFacts.
Import Transcribe Spec.

(** *** Comprehensions *)

Lemma list_comp_Forall2 {A B} (f : A -> result B) (items : list A) (ys : list B) :
  Forall2 (fun x y => f x = Ok y) items ys -> list_comp f items = Ok ys.
Proof.
  induction 1 as [|x y items ys Hx _ IH]; simpl; [reflexivity|].
  rewrite Hx. simpl. rewrite IH. reflexivity.
Qed.

Lemma list_comp_all {A B} (P : B -> Prop) (f : A -> result B) (items : list A) :
  (forall x, x ∈ items -> exists y, f x = Ok y /\ P y) ->
  exists ys, list_comp f items = Ok ys /\ Forall P ys.
Proof.
  induction items as [|x items IH]; intros H; simpl.
  - exists []. split; [reflexivity|constructor].
  - destruct (H x) as (y & Hy & HP); [apply list_elem_of_here|].
    destruct IH as (ys & Hys & HPs).
    { intros x' Hx'. apply H. apply list_elem_of_further. exact Hx'. }
    rewrite Hy. simpl. rewrite Hys. simpl.
    exists (y :: ys). split; [reflexivity|]. constructor; assumption.
Qed.

(** Assigning to a key that is new appends the entry. *)
Lemma dict_set_fresh {V} (k : string) (v : V) (d : list (string * V)) :
  k ∉ map fst d -> dict_set k v d = (d ++ [(k, v)])%list.
Proof.
  induction d as [|[k' v'] d IH]; simpl; intros Hk; [reflexivity|].
  destruct (String.eqb_spec k k') as [->|Hne].
  - exfalso. apply Hk. apply list_elem_of_here.
  - rewrite IH; [reflexivity|]. intros Hin. apply Hk. apply list_elem_of_further. exact Hin.
Qed.

(** Assigning to a key that is there keeps the keys as they are. *)
Lemma dict_set_present {V} (k : string) (v : V) (d : list (string * V)) :
  k ∈ map fst d -> map fst (dict_set k v d) = map fst d.
Proof.
  induction d as [|[k' v'] d IH]; simpl; intros Hk; [inversion Hk|].
  destruct (String.eqb_spec k k') as [->|Hne]; [reflexivity|].
  simpl. rewrite IH; [reflexivity|].
  apply elem_of_cons in Hk as [Hk|Hk]; [contradiction|exact Hk].
Qed.

Lemma dict_set_keys {V} (k : string) (v : V) (d : list (string * V)) :
  map fst (dict_set k v d) = map fst d
  \/ ((k ∉ map fst d) /\ dict_set k v d = (d ++ [(k, v)])%list).
Proof.
  destruct (decide (k ∈ map fst d)) as [Hin|Hout].
  - left. apply dict_set_present. exact Hin.
  - right. split; [exact Hout|]. apply dict_set_fresh. exact Hout.
Qed.

Lemma dict_set_values {V} (P : V -> Prop) (k : string) (v : V) (d : list (string * V)) :
  P v -> Forall (fun kv => P (snd kv)) d -> Forall (fun kv => P (snd kv)) (dict_set k v d).
Proof.
  intros Hv. induction 1 as [|[k' v'] d Hkv Hd IH]; simpl.
  - repeat constructor. exact Hv.
  - destruct (String.eqb k k'); constructor; auto.
Qed.

(** A dictionary comprehension whose keys are all different and new lists
    its entries in order after those that were there. *)
Lemma dict_comp_distinct {K A V} (key_of : K -> result string) (f : A -> result V)
    (items : list (K * A)) (kvs acc : list (string * V)) :
  Forall2 (fun item kv => key_of (fst item) = Ok (fst kv) /\ f (snd item) = Ok (snd kv))
    items kvs ->
  NoDup (map fst acc ++ map fst kvs)%list ->
  dict_comp key_of f items acc = Ok (acc ++ kvs)%list.
Proof.
  intros H. revert acc.
  induction H as [|[k x] [s y] items kvs [Hk Hx] _ IH]; intros acc Hnd; simpl.
  - rewrite app_nil_r. reflexivity.
  - simpl in Hk, Hx. rewrite Hk, Hx. simpl.
    simpl in Hnd. rewrite dict_set_fresh.
    + rewrite IH; [rewrite <- app_assoc; reflexivity|].
      rewrite map_app. simpl. rewrite <- app_assoc. exact Hnd.
    + apply NoDup_app in Hnd as (_ & Hdisj & _).
      intros Hin. apply (Hdisj _ Hin). apply list_elem_of_here.
Qed.

Lemma dict_set_key {V} (k : string) (v : V) (d : list (string * V)) :
  k ∈ map fst (dict_set k v d).
Proof.
  induction d as [|[k' v'] d IH]; simpl; [apply list_elem_of_here|].
  destruct (String.eqb_spec k k') as [->|_];
    [apply list_elem_of_here|apply list_elem_of_further, IH].
Qed.

(** The keys of a comprehension are the keys it started from and the
    strings of the keys it went over, once each. *)
Lemma dict_comp_keys {K A V} (key_of : K -> result string) (f : A -> result V)
    (items : list (K * A)) (acc kvs : list (string * V)) :
  dict_comp key_of f items acc = Ok kvs ->
  NoDup (map fst acc) ->
  NoDup (map fst kvs)
  /\ (forall s, s ∈ map fst kvs
        <-> s ∈ map fst acc \/ Ok s ∈ map key_of (map fst items))
  /\ (length kvs <= length acc + length items)%nat.
Proof.
  revert acc. induction items as [|[k x] items IH]; intros acc; simpl.
  - intros [= <-] Hnd. split; [exact Hnd|]. split; [|lia].
    intros s. split; [auto|]. intros [H|H]; [exact H|inversion H].
  - destruct (key_of k) as [sk|] eqn:Hk; simpl; [|discriminate].
    destruct (f x) as [y|]; simpl; [|discriminate].
    intros Hc Hnd.
    assert (Hhead : forall s, Ok s = Ok sk <-> s = sk).
    { intros s. split; [intros [= ->]; reflexivity|intros ->; reflexivity]. }
    destruct (dict_set_keys sk y acc) as [Hsame|[Hout Happ]].
    + apply IH in Hc as (H1 & H2 & H3); [|rewrite Hsame; exact Hnd].
      split; [exact H1|]. split.
      * intros s. rewrite H2, Hsame, elem_of_cons, Hhead.
        destruct (decide (sk ∈ map fst acc)) as [Hin|Hout].
        -- split; [tauto|]. intros [H|[->|H]]; auto.
        -- exfalso. apply Hout. rewrite <- Hsame. apply dict_set_key.
      * assert (Hlen : length (dict_set sk y acc) = length acc).
        { rewrite <- (length_map fst), Hsame, length_map. reflexivity. }
        rewrite Hlen in H3. lia.
    + rewrite Happ in Hc. apply IH in Hc as (H1 & H2 & H3).
      * split; [exact H1|]. split.
        -- intros s. rewrite H2, map_app, elem_of_app, elem_of_cons, Hhead. simpl.
           rewrite list_elem_of_singleton. tauto.
        -- rewrite length_app in H3. simpl in H3. lia.
      * rewrite map_app. simpl. apply NoDup_app. split; [exact Hnd|]. split.
        -- intros s Hs Hs'. apply list_elem_of_singleton in Hs'. subst s. contradiction.
        -- apply NoDup_singleton.
Qed.

Lemma dict_comp_all {K A V} (P : V -> Prop) (key_of : K -> result string)
    (f : A -> result V) (items : list (K * A)) (acc : list (string * V)) :
  (forall k, k ∈ map fst items -> exists s, key_of k = Ok s) ->
  (forall x, x ∈ map snd items -> exists y, f x = Ok y /\ P y) ->
  Forall (fun kv => P (snd kv)) acc ->
  exists kvs, dict_comp key_of f items acc = Ok kvs /\ Forall (fun kv => P (snd kv)) kvs.
Proof.
  revert acc. induction items as [|[k x] items IH]; intros acc Hkeys H Hacc; simpl.
  - exists acc. split; [reflexivity|exact Hacc].
  - destruct (Hkeys k) as [s Hs]; [apply list_elem_of_here|].
    destruct (H x) as (y & Hy & HP); [apply list_elem_of_here|].
    rewrite Hs, Hy. simpl. apply IH.
    + intros k' Hk'. apply Hkeys. simpl. apply list_elem_of_further. exact Hk'.
    + intros x' Hx'. apply H. simpl. apply list_elem_of_further. exact Hx'.
    + apply dict_set_values; assumption.
Qed.

(** *** Identity on JSON values *)

Lemma height_list_max (xs : list value) :
  Forall (fun x => height x <= list_max (map height xs))%nat xs.
Proof.
  induction xs as [|x xs IH]; simpl; constructor; [lia|].
  eapply Forall_impl; [exact IH|]. simpl. intros y Hy. lia.
Qed.

Lemma height_dict_max (kvs : list (string * value)) :
  Forall (fun kv => height (snd kv) <= list_max (map (fun kv => height (snd kv)) kvs))%nat
    kvs.
Proof.
  induction kvs as [|kv kvs IH]; simpl; constructor; [lia|].
  eapply Forall_impl; [exact IH|]. simpl. intros y Hy. lia.
Qed.

Lemma stored_keys (h : store) (items : list (key * loc)) (kvs : list (string * value)) :
  Forall2 (fun item kv => fst item = KStr (fst kv) /\ stored h (snd item) (snd kv))
    items kvs ->
  map fst items = map KStr (map fst kvs).
Proof.
  induction 1 as [|i kv items kvs [Hk _] _ IH]; simpl; [reflexivity|].
  rewrite Hk, IH. reflexivity.
Qed.

Lemma NoDup_map_KStr (ks : list string) : NoDup (map KStr ks) -> NoDup ks.
Proof.
  induction ks as [|k ks IH]; [constructor|].
  simpl. intros Hnd. apply NoDup_cons in Hnd as [Hk Hks].
  apply NoDup_cons. split; [|apply IH; exact Hks].
  intros Hin. apply Hk. apply list_elem_of_fmap. exists k. auto.
Qed.

(** C7: when the object at [l] is a JSON value [v] (a primitive, or lists
    and string-keyed dictionaries of JSON values, nested to any depth),
    [to_jsonable] returns [v] itself, for every recursion limit above the
    nesting depth of [v]. *)
Theorem to_jsonable_identity (h : store) (l : loc) (v : value) :
  stored h l v ->
  forall depth, (height v < depth)%nat -> to_jsonable h depth l = Ok v.
Proof.
  intros Hs depth. revert l v Hs.
  induction depth as [|d IH]; intros l v Hs Hh; [lia|].
  inversion Hs as [l' E|l' b E|l' n E|l' s E|l' items xs E Hitems|l' items kvs E Hnd Hitems];
    subst; simpl; rewrite E; try reflexivity.
  - rewrite (list_comp_Forall2 (to_jsonable h d) items xs); [reflexivity|].
    assert (Hlow : Forall (fun x => height x < d)%nat xs).
    { eapply Forall_impl; [apply height_list_max|]. simpl in Hh |- *. intros x Hx. lia. }
    clear Hs E Hh. induction Hitems as [|i x items xs Hix _ IHi]; constructor.
    + apply IH; [exact Hix|]. apply Forall_inv in Hlow. exact Hlow.
    + apply IHi. apply Forall_inv_tail in Hlow. exact Hlow.
  - rewrite (dict_comp_distinct str_of_key (to_jsonable h d) items kvs []);
      [reflexivity| |].
    + assert (Hlow : Forall (fun kv => height (snd kv) < d)%nat kvs).
      { eapply Forall_impl; [apply height_dict_max|]. simpl in Hh |- *. intros x Hx. lia. }
      clear Hs E Hh Hnd. induction Hitems as [|i kv items kvs [Hk Hst] _ IHi]; constructor.
      * split; [rewrite Hk; reflexivity|].
        apply IH; [exact Hst|]. apply Forall_inv in Hlow. exact Hlow.
      * apply IHi. apply Forall_inv_tail in Hlow. exact Hlow.
    + simpl. apply NoDup_map_KStr. rewrite <- (stored_keys h items kvs Hitems). exact Hnd.
Qed.

Lemma to_jsonable_identity_witness :
  to_jsonable Samples.transcript 3 0%nat
  = Ok (VDict [("text", VStr "hello");
               ("confidence", VNum (NFloat (S754_finite false 4503599627370496 (-53))));
               ("tokens", VList [VNone; VBool true; VNum (NInt 3)])]).
Proof.
  apply (to_jsonable_identity Samples.transcript 0%nat).
  - eapply stored_dict; [reflexivity| |].
    + repeat (apply NoDup_cons; split;
              [intros H; repeat (apply elem_of_cons in H as [H|H]; [discriminate H|]);
               inversion H|]).
      apply NoDup_nil. exact I.
    + constructor; [split; [reflexivity|apply stored_str; reflexivity]|].
      constructor; [split; [reflexivity|apply stored_num; reflexivity]|].
      constructor; [split; [reflexivity|]|constructor].
      eapply stored_list; [reflexivity|].
      constructor; [apply stored_none; reflexivity|].
      constructor; [apply stored_bool; reflexivity|].
      constructor; [apply stored_num; reflexivity|constructor].
  - simpl. lia.
Defined.

(** *** Dictionary keys *)

(** C10: the keys of the dictionary [to_jsonable] builds are the [str] of
    the keys of its argument, each once, so it has at most as many entries;
    [{1: "first", "1": "second"}] has two distinct keys with the same [str]
    and comes out with the single entry ["1": "second"]. *)
Theorem to_jsonable_dict_keys :
  (forall (h : store) (depth : nat) (l : loc) (items : list (key * loc)) (v : value),
     h l = PDict items ->
     to_jsonable h depth l = Ok v ->
     exists kvs, v = VDict kvs
       /\ NoDup (map fst kvs)
       /\ (forall s, s ∈ map fst kvs <-> Ok s ∈ map str_of_key (map fst items))
       /\ (length kvs <= length items)%nat)
  /\ (Samples.colliding 0%nat = PDict [(KInt 1, 1%nat); (KStr "1", 2%nat)]
      /\ KInt 1 <> KStr "1"
      /\ str_of_key (KInt 1) = str_of_key (KStr "1")
      /\ to_jsonable Samples.colliding 2 0%nat = Ok (VDict [("1", VStr "second")])
      /\ (length [("1", VStr "second")] < length [(KInt 1, 1%nat); (KStr "1", 2%nat)])%nat).
Proof.
  split.
  - intros h depth l items v E Hv. destruct depth as [|d]; [discriminate Hv|].
    simpl in Hv. rewrite E in Hv.
    destruct (dict_comp str_of_key (to_jsonable h d) items []) as [kvs|] eqn:Hc;
      [|discriminate Hv].
    injection Hv as <-. exists kvs. split; [reflexivity|].
    apply dict_comp_keys in Hc as (H1 & H2 & H3); [|apply NoDup_nil; exact I].
    split; [exact H1|]. split; [|exact H3].
    intros s. rewrite H2. split; [intros [H|H]; [inversion H|exact H]|auto].
  - split; [reflexivity|]. split; [discriminate|]. split; [reflexivity|].
    split; [reflexivity|]. simpl. lia.
Qed.

Lemma to_jsonable_dict_keys_witness :
  exists kvs, VDict [("1", VStr "second")] = VDict kvs
    /\ NoDup (map fst kvs)
    /\ (forall s, s ∈ map fst kvs
          <-> Ok s ∈ map str_of_key (map fst [(KInt 1, 1%nat); (KStr "1", 2%nat)]))
    /\ (length kvs <= length [(KInt 1, 1%nat); (KStr "1", 2%nat)])%nat.
Proof.
  apply (proj1 to_jsonable_dict_keys Samples.colliding 2%nat 0%nat);
    reflexivity.
Defined.

(** *** Termination and JSON safety *)

Lemma json_safe_dict (kvs : list (string * value)) :
  Forall (fun kv => json_safe (snd kv) = true) kvs -> json_safe (VDict kvs) = true.
Proof. simpl. induction 1 as [|kv kvs Hkv _ IH]; simpl; [reflexivity|]. rewrite Hkv. exact IH. Qed.

Lemma json_safe_list (xs : list value) :
  Forall (fun x => json_safe x = true) xs -> json_safe (VList xs) = true.
Proof. simpl. induction 1 as [|x xs Hx _ IH]; simpl; [reflexivity|]. rewrite Hx. exact IH. Qed.

(** *** What comes back from the recursive calls *)

Lemma list_comp_returns {A B} (P : B -> Prop) (f : A -> result B) (xs : list A)
    (ys : list B) :
  (forall x y, f x = Ok y -> P y) -> list_comp f xs = Ok ys -> Forall P ys.
Proof.
  intros HP. revert ys. induction xs as [|x xs IH]; intros ys; simpl.
  - intros [= <-]. constructor.
  - destruct (f x) as [y|] eqn:Hx; simpl; [|discriminate].
    destruct (list_comp f xs) as [ys'|]; simpl; [|discriminate].
    intros [= <-]. constructor; [eapply HP; exact Hx|apply IH; reflexivity].
Qed.

Lemma dict_comp_returns {K A V} (P : V -> Prop) (key_of : K -> result string)
    (f : A -> result V) (items : list (K * A)) (acc kvs : list (string * V)) :
  (forall x y, f x = Ok y -> P y) ->
  Forall (fun kv => P (snd kv)) acc ->
  dict_comp key_of f items acc = Ok kvs ->
  Forall (fun kv => P (snd kv)) kvs.
Proof.
  intros HP. revert acc. induction items as [|[k x] items IH]; intros acc Hacc; simpl.
  - intros [= <-]. exact Hacc.
  - destruct (key_of k) as [s|]; simpl; [|discriminate].
    destruct (f x) as [y|] eqn:Hx; simpl; [|discriminate].
    apply IH. apply dict_set_values; [eapply HP; exact Hx|exact Hacc].
Qed.

(** Whatever [to_jsonable] returns is a JSON value, when those of numpy
    are. *)
Lemma returned_json (h : store) (depth : nat) (l : loc) (v : value) :
  numpy_json h -> to_jsonable h depth l = Ok v -> json_safe v = true.
Proof.
  intros Hnp. revert l v. induction depth as [|d IH]; intros l v; [discriminate|].
  destruct (h l) as [|b|n|s|items|items|items|items|o|e] eqn:E;
    simpl; rewrite E; try (intros [= <-]; reflexivity); try discriminate.
  - destruct (list_comp (to_jsonable h d) items) as [xs|] eqn:Hc; simpl; [|discriminate].
    intros [= <-]. apply json_safe_list.
    eapply list_comp_returns; [|exact Hc]. intros x y. apply IH.
  - destruct (list_comp (to_jsonable h d) items) as [xs|] eqn:Hc; simpl; [|discriminate].
    intros [= <-]. apply json_safe_list.
    eapply list_comp_returns; [|exact Hc]. intros x y. apply IH.
  - destruct (list_comp (to_jsonable h d) items) as [xs|] eqn:Hc; simpl; [|discriminate].
    intros [= <-]. apply json_safe_list.
    eapply list_comp_returns; [|exact Hc]. intros x y. apply IH.
  - destruct (dict_comp str_of_key (to_jsonable h d) items []) as [kvs|] eqn:Hc; simpl;
      [|discriminate].
    intros [= <-]. apply json_safe_dict.
    eapply (dict_comp_returns (fun x => json_safe x = true)); [exact IH|constructor|exact Hc].
  - set (by_repr := bind (repr o) _).
    assert (Hrepr : forall v, by_repr = Ok v -> json_safe v = true).
    { subst by_repr. destruct (repr o); simpl; [|discriminate].
      intros v' [= <-]. reflexivity. }
    set (by_vars := bind (vars o) _).
    assert (Hvars : forall v, by_vars = Ok v -> json_safe v = true).
    { subst by_vars. destruct (vars o) as [[attrs|]|e]; simpl;
        [|exact Hrepr|discriminate].
      destruct (dict_comp Ok (to_jsonable h d) _ []) as [kvs|] eqn:Hc; simpl;
        [|exact Hrepr].
      intros v' [= <-]. apply json_safe_dict.
      eapply (dict_comp_returns (fun x => json_safe x = true));
        [exact IH|constructor|exact Hc]. }
    set (by_to_dict := bind (to_dict o) _).
    assert (Hto : forall v, by_to_dict = Ok v -> json_safe v = true).
    { subst by_to_dict. destruct (to_dict o) as [[[r|e]|]|e]; simpl;
        try exact Hvars; [|discriminate].
      destruct (to_jsonable h d r) as [x|] eqn:Hr; simpl; [|exact Hvars].
      intros v' [= <-]. eapply IH. exact Hr. }
    destruct (dataclass o) as [[d'|e]|]; simpl; [apply IH|discriminate|].
    destruct (numpy o) as [[[x|e]|[x|e]]|] eqn:Hn; simpl; try exact (Hto v).
    + intros [= <-]. eapply Hnp; eauto.
    + intros [= <-]. eapply Hnp; eauto.
Qed.

(** An object that is no dataclass comes out as something when [getattr],
    [hasattr] and [repr] return on it: whatever fails in a [try] leads to
    the next branch, and the last one is [repr]. *)
Lemma object_returns (h : store) (d : nat) (l : loc) (o : object)
    (method : option (result loc)) (has_dict : option (list (string * loc)))
    (s : string) :
  h l = PObject o -> dataclass o = None ->
  to_dict o = Ok method -> vars o = Ok has_dict -> repr o = Ok s ->
  exists v, to_jsonable h (S d) l = Ok v.
Proof.
  intros E Hdc Hmethod Hdict Hrepr. simpl. rewrite E, Hdc, Hmethod, Hdict, Hrepr. simpl.
  set (by_vars := match has_dict with Some attrs => _ | None => _ end).
  assert (Hvars : exists v, by_vars = Ok v).
  { subst by_vars. destruct has_dict as [attrs|]; [|eexists; reflexivity].
    destruct (dict_comp Ok (to_jsonable h d) _ []); simpl; eexists; reflexivity. }
  set (by_to_dict := match method with Some call => _ | None => _ end).
  assert (Hto : exists v, by_to_dict = Ok v).
  { subst by_to_dict. destruct method as [[r|e]|]; simpl; try exact Hvars.
    destruct (to_jsonable h d r); simpl; [eexists; reflexivity|exact Hvars]. }
  destruct (numpy o) as [[[v|e]|[v|e]]|]; simpl; try exact Hto; eexists; reflexivity.
Qed.

(** *** Termination and JSON safety *)

Lemma converted_seq (h : store) (d : nat) (items : list loc) :
  (forall c, c ∈ items -> converted h d c) ->
  exists v, (let* xs := list_comp (to_jsonable h d) items in Ok (VList xs)) = Ok v
            /\ json_safe v = true.
Proof.
  intros H.
  destruct (list_comp_all (fun v => json_safe v = true) (to_jsonable h d) items H)
    as (xs & Hxs & Hsafe).
  rewrite Hxs. simpl. exists (VList xs). split; [reflexivity|].
  apply json_safe_list. exact Hsafe.
Qed.

Lemma converted_dict (h : store) (d : nat) (items : list (key * loc)) :
  (forall k, k ∈ map fst items -> exists s, str_of_key k = Ok s) ->
  (forall c, c ∈ map snd items -> converted h d c) ->
  exists v, (let* kvs := dict_comp str_of_key (to_jsonable h d) items [] in Ok (VDict kvs))
            = Ok v
            /\ json_safe v = true.
Proof.
  intros Hkeys H.
  destruct (dict_comp_all (fun v => json_safe v = true) str_of_key (to_jsonable h d)
              items [] Hkeys H) as (kvs & Hkvs & Hsafe); [constructor|].
  rewrite Hkvs. simpl. exists (VDict kvs). split; [reflexivity|].
  apply json_safe_dict. exact Hsafe.
Qed.

Lemma is_ok_returns {A} (r : result A) : is_ok r = true -> exists a, r = Ok a.
Proof. destruct r as [a|e]; [eauto|discriminate]. Qed.


(** A list that contains itself: every call goes one level down until the
    interpreter has no frame left. *)
Lemma self_list_raises (depth : nat) :
  to_jsonable Samples.self_list depth 0%nat = Raise RecursionError.
Proof.
  induction depth as [|d IH]; [reflexivity|].
  simpl. rewrite IH. reflexivity.
Qed.


Lemma tree_numpy_json : numpy_json Samples.tree.
Proof.
  intros l o x E H. destruct l as [|[|[|l]]]; simpl in E; try discriminate E.
  injection E as <-. destruct H as [H|H]; discriminate H.
Defined.


(** The list of a tree whose nodes lead back to it, through what
    [to_dict()] returns and through an attribute: the conversion goes as
    deep as the recursion limit lets it and closes with the [repr] of a
    node. *)
Example to_jsonable_tree :
  to_jsonable Samples.tree 2 0%nat = Ok (VList [VStr "<Node root>"])
  /\ to_jsonable Samples.tree 5 0%nat
     = Ok (VList [VDict [("name", VStr "root");
                         ("children", VList [VStr "<Node root>"])]]).
Proof. split; reflexivity. Qed.

(** The sentence of a transcript, a dataclass whose field holds a tuple. *)
Example to_jsonable_dataclass :
  to_jsonable Samples.objects 4 0%nat
  = Ok (VDict [("words", VList [VStr "hello"; VStr "world"])]).
Proof. reflexivity. Qed.

(** An object with no attributes comes out as its [repr]. *)
Example to_jsonable_no_attributes :
  to_jsonable Samples.objects 1 8%nat = Ok (VStr "<object object>").
Proof. reflexivity. Qed.

(** An object that is its own attribute: the [RecursionError] of the deepest
    call is caught one level up, which falls back to [repr]. *)
Example to_jsonable_self_attribute :
  to_jsonable Samples.objects 3 7%nat
  = Ok (VDict [("me", VDict [("me", VStr "<Node object>")])]).
Proof. reflexivity. Qed.

(** [is_dataclass] also holds of a dataclass type, on which [asdict]
    raises; nothing catches it. *)
Example to_jsonable_dataclass_type :
  to_jsonable Samples.objects 3 5%nat = Raise TypeError.
Proof. reflexivity. Qed.

(** What [item()] returns is handed back as it is. *)
Example to_jsonable_numpy_complex :
  to_jsonable Samples.objects 3 6%nat = Ok (VForeign "complex").
Proof. reflexivity. Qed.

(** [repr], [str] on a key and [getattr] are outside every [try]: what they
    raise comes out, at every recursion limit. *)
Example to_jsonable_unprintable (d : nat) :
  to_jsonable Samples.unprintable (S d) 0%nat = Raise ValueError
  /\ to_jsonable Samples.unprintable (S (S d)) 1%nat = Raise ValueError
  /\ to_jsonable Samples.unprintable (S d) 2%nat = Raise (KeyError "to_dict").
Proof. split; [|split]; reflexivity. Qed.

End JsonableFacts.

(** * Further properties *)

(** ** filter_videos as a filter *)

Section FilterLaws.
Import Download.

Context (float_of_str : string -> option spec_float).
Context (str_lower : string -> string).

Local Abbreviation parse_duration := (parse_duration float_of_str).
Local Abbreviation keeps := (keeps float_of_str str_lower).
Local Abbreviation filter_videos := (filter_videos float_of_str str_lower).
Local Abbreviation kept f :=
  (fun v : entry => match keeps f v with Ok true => true | _ => false end).
Local Abbreviation has_duration :=
  (fun v : entry => bool_decide (is_Some (v !! "duration"))).

Lemma keeps_raises f v e :
  keeps f v = Raise e <-> (v !! "duration" = None /\ e = KeyError "duration").
Proof.
  unfold Download.keeps, Download.parse_duration.
  destruct (v !! "duration") as [d|]; simpl.
  - split; [|intros [H _]; discriminate H].
    destruct (String.eqb d "NA"); [|destruct (float_of_str d)]; simpl;
      repeat match goal with |- context [if ?b then _ else _] => destruct b end;
      discriminate.
  - split; [intros [= <-]; auto|intros [_ ->]; reflexivity].
Qed.

(** The loop is a filter: it raises at the first entry without a duration
    and otherwise returns the entries its body keeps. *)
Lemma filter_videos_filter videos f :
  filter_videos videos f
  = if forallb has_duration videos then Ok (List.filter (kept f) videos)
    else Raise (KeyError "duration").
Proof.
  induction videos as [|v rest IH]; simpl; [reflexivity|].
  rewrite IH. destruct (keeps f v) as [keep|e] eqn:Hk; simpl.
  - assert (Hd : has_duration v = true).
    { apply bool_decide_eq_true. unfold Download.keeps, Download.parse_duration in Hk.
      destruct (v !! "duration"); [eauto|discriminate Hk]. }
    rewrite Hd. simpl. destruct (forallb has_duration rest); simpl; [|reflexivity].
    destruct keep; reflexivity.
  - apply keeps_raises in Hk as [Hnone ->].
    assert (Hd : has_duration v = false).
    { apply bool_decide_eq_false. rewrite Hnone. intros [x Hx]. discriminate Hx. }
    rewrite Hd. reflexivity.
Qed.

Lemma filter_has_duration (p : entry -> bool) videos :
  forallb has_duration videos = true ->
  forallb has_duration (List.filter p videos) = true.
Proof.
  induction videos as [|v rest IH]; simpl; [reflexivity|].
  intros H. apply andb_true_iff in H as [Hv Hrest].
  destruct (p v); simpl; [rewrite Hv|]; auto.
Qed.

Lemma filter_sublist {A} (p : A -> bool) (xs : list A) : sublist (List.filter p xs) xs.
Proof.
  induction xs as [|x xs IH]; simpl; [constructor|].
  destruct (p x); constructor; exact IH.
Qed.

Lemma filter_filter_and {A} (p q : A -> bool) (xs : list A) :
  List.filter q (List.filter p xs) = List.filter (fun x => p x && q x) xs.
Proof.
  induction xs as [|x xs IH]; simpl; [reflexivity|].
  destruct (p x); simpl; [destruct (q x); simpl|]; rewrite IH; reflexivity.
Qed.

Lemma filter_ext_bool {A} (p q : A -> bool) (xs : list A) :
  (forall x, p x = q x) -> List.filter p xs = List.filter q xs.
Proof.
  intros H. induction xs as [|x xs IH]; simpl; [reflexivity|].
  rewrite H, IH. reflexivity.
Qed.

(** What comes out was put in, and what the body keeps comes out. *)
Lemma filter_videos_from videos f r v :
  filter_videos videos f = Ok r -> v ∈ r -> v ∈ videos.
Proof.
  rewrite filter_videos_filter.
  destruct (forallb has_duration videos); [|discriminate].
  intros [= <-] Hv. apply list_elem_of_In. apply list_elem_of_In, filter_In in Hv.
  exact (proj1 Hv).
Qed.

Lemma filter_videos_keeps videos f r v :
  filter_videos videos f = Ok r -> v ∈ videos -> keeps f v = Ok true -> v ∈ r.
Proof.
  rewrite filter_videos_filter.
  destruct (forallb has_duration videos); [|discriminate].
  intros [= <-] Hin Hk.
  apply list_elem_of_In, filter_In. split; [apply list_elem_of_In; exact Hin|].
  rewrite Hk. reflexivity.
Qed.

(** X1: the result of [filter_videos] is a subsequence of its input: the
    entries kept are entries of the input, in the order of the input, none
    twice. *)
Theorem filter_videos_sublist videos f r :
  filter_videos videos f = Ok r -> sublist r videos.
Proof.
  rewrite filter_videos_filter.
  destruct (forallb has_duration videos); [|discriminate].
  intros [= <-]. apply filter_sublist.
Qed.

(** X2: [filter_videos] raises exactly when some entry has no [duration]
    key, and what it raises is [KeyError: 'duration']; no filter setting
    changes that. *)
Theorem filter_videos_raises videos f e :
  filter_videos videos f = Raise e
  <-> (e = KeyError "duration" /\ Exists (fun v : entry => v !! "duration" = None) videos).
Proof.
  rewrite filter_videos_filter.
  destruct (forallb has_duration videos) eqn:Hall.
  - split; [discriminate|]. intros [_ Hex]. exfalso.
    rewrite forallb_forall in Hall. apply Exists_exists in Hex as (v & Hin & Hnone).
    apply list_elem_of_In, Hall, bool_decide_eq_true in Hin as [x Hx]. congruence.
  - split.
    + intros [= <-]. split; [reflexivity|].
      apply Exists_exists.
      assert (Hex : exists v, In v videos /\ has_duration v = false).
      { clear -Hall. induction videos as [|v rest IH]; [discriminate|].
        simpl in Hall. apply andb_false_iff in Hall as [Hv|Hrest].
        - exists v. split; [left; reflexivity|exact Hv].
        - destruct (IH Hrest) as (v' & Hin & Hv'). exists v'. split; [right|]; assumption. }
      destruct Hex as (v & Hin & Hv). exists v. split; [apply list_elem_of_In; exact Hin|].
      apply bool_decide_eq_false in Hv. destruct (v !! "duration"); [|reflexivity].
      exfalso. apply Hv. eauto.
    + intros [-> _]. reflexivity.
Qed.

(** X3: no entry that passes the three tests of the loop is left out:
    an entry of the input whose duration is not below the minimum, not
    above the maximum, and whose title misses no keyword, is in the
    result. *)
Theorem filter_videos_complete videos f r v d :
  filter_videos videos f = Ok r ->
  v ∈ videos ->
  parse_duration v = Ok d ->
  below_min f d = false ->
  above_max f d = false ->
  misses_keyword str_lower f v = false ->
  v ∈ r.
Proof.
  intros Hr Hin Hd Hmin Hmax Hkw.
  apply (filter_videos_keeps videos f r v Hr Hin).
  unfold Download.keeps. rewrite Hd. simpl. rewrite Hmin, Hmax, Hkw. reflexivity.
Qed.

(** X4: two filterings commute: filtering by [f] and then by [g] gives what
    filtering by [g] and then by [f] gives, exception included. *)
Theorem filter_videos_commute videos f g :
  (let* r := filter_videos videos f in filter_videos r g)
  = (let* r := filter_videos videos g in filter_videos r f).
Proof.
  rewrite !(filter_videos_filter videos).
  destruct (forallb has_duration videos) eqn:Hall; simpl; [|reflexivity].
  rewrite !filter_videos_filter, !filter_has_duration by exact Hall.
  rewrite !filter_filter_and. f_equal.
  apply filter_ext_bool. intros v. apply andb_comm.
Qed.

Lemma misses_keyword_app v kws1 kws2 min_dur max_dur :
  misses_keyword str_lower
    {| keywords := Some (kws1 ++ kws2)%list; min_duration := min_dur;
       max_duration := max_dur |} v
  = misses_keyword str_lower
      {| keywords := Some kws1; min_duration := min_dur; max_duration := max_dur |} v
    || misses_keyword str_lower
         {| keywords := Some kws2; min_duration := min_dur; max_duration := max_dur |} v.
Proof.
  unfold misses_keyword; simpl.
  set (has := fun kw => str_in (str_lower kw) (str_lower (default EmptyString (v !! "title")))).
  assert (H : forall kws, match kws with
                          | [] => false
                          | _ :: _ => negb (forallb has kws)
                          end = negb (forallb has kws)).
  { intros [|kw kws]; reflexivity. }
  rewrite !H, forallb_app, negb_andb. reflexivity.
Qed.

(** X5: filtering by one keyword list and then by another, with the same
    duration bounds, is filtering by the two lists together: keywords are
    a conjunction. *)
Theorem filter_videos_keywords_app videos kws1 kws2 min_dur max_dur :
  (let* r := filter_videos videos
               {| keywords := Some kws1; min_duration := min_dur;
                  max_duration := max_dur |} in
   filter_videos r
     {| keywords := Some kws2; min_duration := min_dur; max_duration := max_dur |})
  = filter_videos videos
      {| keywords := Some (kws1 ++ kws2)%list; min_duration := min_dur;
         max_duration := max_dur |}.
Proof.
  rewrite !(filter_videos_filter videos).
  destruct (forallb has_duration videos) eqn:Hall; simpl; [|reflexivity].
  rewrite filter_videos_filter, filter_has_duration by exact Hall.
  rewrite filter_filter_and. f_equal.
  apply filter_ext_bool. intros v.
  unfold Download.keeps.
  destruct (parse_duration v) as [d|]; simpl; [|reflexivity].
  unfold below_min, above_max; simpl.
  rewrite misses_keyword_app.
  repeat match goal with |- context [if ?b then _ else _] => destruct b; simpl end;
    reflexivity.
Qed.

Lemma num_gt_zero_le (m : number) :
  num_gt m (NInt 0) = true -> num_le (NInt 0) m = true.
Proof.
  unfold num_gt, num_le, num_compare. simpl num_ext.
  destruct (num_ext m) as [| | |m1 e1]; try discriminate; try reflexivity.
  unfold fin_compare.
  assert (H1 : 0 < 2 ^ (e1 - Z.min e1 0)) by (apply Z.pow_pos_nonneg; lia).
  assert (H2 : 0 < 2 ^ (e1 - Z.min 0 e1)) by (apply Z.pow_pos_nonneg; lia).
  rewrite !Z.mul_0_l.
  destruct (Z.compare_spec (m1 * 2 ^ (e1 - Z.min e1 0)) 0) as [|Hlt|Hgt]; try discriminate.
  intros _. assert (0 < m1) by nia.
  destruct (Z.compare_spec 0 (m1 * 2 ^ (e1 - Z.min 0 e1))); try reflexivity. nia.
Qed.

(** An entry kept under a minimum above zero has a duration that [float]
    reads. *)
Lemma keeps_min_readable f m v :
  keeps f v = Ok true ->
  min_duration f = Some m ->
  num_gt m (NInt 0) = true ->
  exists d x, v !! "duration" = Some d /\ d <> "NA" /\ float_of_str d = Some x.
Proof.
  intros Hv Hm Hpos.
  apply keeps_true_inv in Hv as (d & Hd & Hmin & _).
  unfold below_min in Hmin. rewrite Hm in Hmin. simpl in Hmin.
  rewrite (num_gt_zero_truthy m Hpos) in Hmin. simpl in Hmin.
  unfold Download.parse_duration in Hd.
  destruct (v !! "duration") as [s|]; [|discriminate Hd].
  destruct (String.eqb_spec s "NA") as [Hna|Hna].
  - injection Hd as <-. rewrite (num_gt_zero_le m Hpos) in Hmin. discriminate Hmin.
  - destruct (float_of_str s) as [x|] eqn:Hx.
    + eauto.
    + injection Hd as <-. rewrite (num_gt_zero_le m Hpos) in Hmin. discriminate Hmin.
Qed.

(** X6: with a minimum duration above zero, every entry of the result has
    a duration that is not ["NA"] and that [float] reads: an unavailable
    or malformed duration counts as 0 and is dropped. *)
Theorem filter_videos_drops_unreadable videos f r m v :
  filter_videos videos f = Ok r ->
  min_duration f = Some m ->
  num_gt m (NInt 0) = true ->
  v ∈ r ->
  exists d x, v !! "duration" = Some d /\ d <> "NA" /\ float_of_str d = Some x.
Proof.
  intros Hr Hm Hpos Hv. apply filter_videos_kept in Hr.
  rewrite Forall_forall in Hr. apply Hr in Hv.
  exact (keeps_min_readable f m v Hv Hm Hpos).
Qed.

End FilterLaws.

(** ** list_videos *)

Module ListingFacts.
Import Download Listing.

Lemma app_cons (c : ascii) (a b : string) : String c a ++ b = String c (a ++ b).
Proof. reflexivity. Qed.

Lemma count_char_app (c : ascii) (a b : string) :
  count_char c (a ++ b) = (count_char c a + count_char c b)%nat.
Proof.
  induction a as [|x a IH]; [reflexivity|].
  rewrite app_cons. simpl. rewrite IH. lia.
Qed.

Lemma split_on_whole (sep : ascii) (s : string) :
  count_char sep s = O -> split_on sep s = [s].
Proof.
  induction s as [|c s IH]; simpl; [reflexivity|].
  destruct (Ascii.eqb c sep); [discriminate|]. simpl.
  intros H. rewrite (IH H). reflexivity.
Qed.

Lemma split_on_piece (sep : ascii) (a b : string) :
  count_char sep a = O -> split_on sep (a ++ String sep b) = a :: split_on sep b.
Proof.
  induction a as [|c a IH]; intros H.
  - change (EmptyString ++ String sep b) with (String sep b). simpl.
    rewrite Ascii.eqb_refl. reflexivity.
  - rewrite app_cons. simpl in H |- *.
    destruct (Ascii.eqb c sep); [discriminate H|]. simpl in H.
    rewrite (IH H). reflexivity.
Qed.

(** Splitting the text of some lines at the line feeds gives the lines. *)
Lemma split_on_unlines (line : string) (lines : list string) :
  Forall (fun l => count_char newline l = O) (line :: lines) ->
  split_on newline (unlines (line :: lines)) = line :: lines.
Proof.
  revert line. induction lines as [|l lines IH]; intros line H.
  - apply split_on_whole. apply Forall_inv in H. exact H.
  - change (unlines (line :: l :: lines))
      with (line ++ String newline (unlines (l :: lines))).
    rewrite split_on_piece by (apply Forall_inv in H; exact H).
    rewrite IH by (apply Forall_inv_tail in H; exact H). reflexivity.
Qed.

Lemma split_first_piece (sep : ascii) (a b : string) :
  count_char sep a = O -> Spec.split_first sep (a ++ String sep b) = Some (a, b).
Proof.
  induction a as [|c a IH]; intros H.
  - change (EmptyString ++ String sep b) with (String sep b). simpl.
    rewrite Ascii.eqb_refl. reflexivity.
  - rewrite app_cons. simpl in H |- *.
    destruct (Ascii.eqb c sep); [discriminate H|]. simpl in H.
    rewrite (IH H). reflexivity.
Qed.

Lemma split_first_none (sep : ascii) (s : string) :
  count_char sep s = O -> Spec.split_first sep s = None.
Proof.
  induction s as [|c s IH]; simpl; [reflexivity|].
  destruct (Ascii.eqb c sep); [discriminate|]. simpl. intros H.
  rewrite (IH H). reflexivity.
Qed.

(** What [split_first] cuts off holds no separator, and the two pieces
    with the separator make up the string. *)
Lemma split_first_spec (sep : ascii) (s a b : string) :
  Spec.split_first sep s = Some (a, b) ->
  s = a ++ String sep b /\ count_char sep a = O.
Proof.
  revert a. induction s as [|c s IH]; intros a; simpl; [discriminate|].
  destruct (Ascii.eqb_spec c sep) as [->|Hne].
  - intros [= <- <-]. split; reflexivity.
  - destruct (Spec.split_first sep s) as [[a' b']|]; [|discriminate].
    intros [= <- <-]. destruct (IH a' eq_refl) as [-> Hfree].
    split; [reflexivity|]. simpl.
    destruct (Ascii.eqb_spec c sep); [contradiction|exact Hfree].
Qed.

Lemma str_in_char (c : ascii) (s : string) :
  str_in (String c EmptyString) s = negb (count_char c s =? 0)%nat.
Proof.
  induction s as [|a s IH]; [reflexivity|].
  simpl str_in. simpl count_char. rewrite IH.
  unfold String.prefix.
  destruct (ascii_dec c a) as [<-|Hne].
  - rewrite Ascii.eqb_refl. destruct s; reflexivity.
  - destruct (Ascii.eqb_spec a c) as [->|_]; [contradiction|]. reflexivity.
Qed.

(** X7: a line gives an entry exactly when it holds two tab characters or
    more; the other lines are passed over. *)
Theorem entry_of_line_tabs (line : string) :
  is_Some (entry_of_line line) <-> (2 <= count_char tab line)%nat.
Proof.
  unfold entry_of_line. rewrite str_in_char. unfold split_max.
  destruct (Spec.split_first tab line) as [[id rest]|] eqn:H1.
  - apply split_first_spec in H1 as [-> Hid].
    rewrite count_char_app. simpl count_char. rewrite ?Ascii.eqb_refl, Hid. simpl.
    destruct (Spec.split_first tab rest) as [[duration title]|] eqn:H2.
    + apply split_first_spec in H2 as [-> Hd].
      rewrite count_char_app. simpl count_char. rewrite ?Ascii.eqb_refl.
      split; [lia|eauto].
    + split; [intros [x Hx]; discriminate Hx|].
      intros Hge. exfalso.
      destruct (count_char tab rest) as [|n] eqn:Hn; [lia|].
      clear -H2 Hn. revert n Hn. induction rest as [|c rest IH]; intros n Hn;
        [discriminate Hn|].
      simpl in H2, Hn. destruct (Ascii.eqb c tab); [discriminate H2|].
      destruct (Spec.split_first tab rest) as [[? ?]|]; [discriminate H2|].
      eapply IH; [reflexivity|exact Hn].
  - split; [intros [x Hx]|].
    + destruct (negb _); discriminate Hx.
    + intros Hge. exfalso.
      destruct (count_char tab line) as [|n] eqn:Hn; [lia|].
      clear -H1 Hn. revert n Hn. induction line as [|c line IH]; intros n Hn;
        [discriminate Hn|].
      simpl in H1, Hn. destruct (Ascii.eqb c tab); [discriminate H1|].
      destruct (Spec.split_first tab line) as [[? ?]|]; [discriminate H1|].
      eapply IH; [reflexivity|exact Hn].
Qed.

Lemma entry_of_line_shape (line : string) (v : entry) :
  entry_of_line line = Some v ->
  exists id duration title,
    v = {[ "id" := id; "duration" := duration; "title" := title ]}
    /\ line = printed_line id duration title
    /\ count_char tab id = O /\ count_char tab duration = O.
Proof.
  unfold entry_of_line, split_max.
  destruct (str_in _ line); [|discriminate].
  destruct (Spec.split_first tab line) as [[id rest]|] eqn:H1; [|discriminate].
  destruct (Spec.split_first tab rest) as [[duration title]|] eqn:H2; [|discriminate].
  intros [= <-].
  apply split_first_spec in H1 as [-> Hid].
  apply split_first_spec in H2 as [-> Hd].
  exists id, duration, title. auto.
Qed.

Lemma entry_of_printed_line (id duration title : string) :
  count_char tab id = O -> count_char tab duration = O ->
  entry_of_line (printed_line id duration title)
  = Some {[ "id" := id; "duration" := duration; "title" := title ]}.
Proof.
  intros Hid Hd. unfold entry_of_line, printed_line.
  rewrite str_in_char, count_char_app. simpl count_char.
  rewrite ?Ascii.eqb_refl, Hid. simpl.
  rewrite (split_first_piece tab id) by exact Hid.
  rewrite (split_first_piece tab duration) by exact Hd. reflexivity.
Qed.

Lemma entry_lookup (id duration title : string) :
  ({[ "id" := id; "duration" := duration; "title" := title ]} : entry) !! "id" = Some id
  /\ ({[ "id" := id; "duration" := duration; "title" := title ]} : entry) !! "duration"
     = Some duration
  /\ ({[ "id" := id; "duration" := duration; "title" := title ]} : entry) !! "title"
     = Some title.
Proof. repeat split; simplify_map_eq; reflexivity. Qed.

Section Composition.

Context (float_of_str : string -> option spec_float).
Context (str_lower : string -> string).
Context (str_strip : string -> string).
Context (flat_playlist : string -> string).

Local Abbreviation list_videos := (list_videos str_strip flat_playlist).

Lemma list_videos_shape url v :
  v ∈ list_videos url ->
  exists id duration title,
    v = {[ "id" := id; "duration" := duration; "title" := title ]}.
Proof.
  unfold Listing.list_videos, parse_listing. intros Hv.
  apply list_elem_of_omap in Hv as (line & _ & Hline).
  apply entry_of_line_shape in Hline as (id & duration & title & -> & _).
  eauto.
Qed.

Lemma entries_of_printed_lines (rows : list (string * string * string)) :
  Forall (fun row : string * string * string =>
            count_char tab row.1.1 = O /\ count_char tab row.1.2 = O) rows ->
  omap entry_of_line (map (fun row => printed_line row.1.1 row.1.2 row.2) rows)
  = map (fun row : string * string * string =>
           ({[ "id" := row.1.1; "duration" := row.1.2; "title" := row.2 ]} : entry)) rows.
Proof.
  induction 1 as [|r rs [Hi Hd] _ IH]; [reflexivity|].
  simpl. rewrite (entry_of_printed_line _ _ _ Hi Hd). simpl. f_equal. exact IH.
Qed.

(** X8: the text that the template prints for some videos, one line each,
    is read back as those videos, in order: [id] and [duration] are cut at
    the first two tabs and the title is the rest of the line, tabs
    included. *)
Theorem list_videos_round_trip url (rows : list (string * string * string)) :
  Forall (fun row : string * string * string =>
            count_char tab row.1.1 = O /\ count_char newline row.1.1 = O
            /\ count_char tab row.1.2 = O /\ count_char newline row.1.2 = O
            /\ count_char newline row.2 = O) rows ->
  str_strip (flat_playlist url)
  = unlines (map (fun row => printed_line row.1.1 row.1.2 row.2) rows) ->
  list_videos url
  = map (fun row : string * string * string =>
           ({[ "id" := row.1.1; "duration" := row.1.2; "title" := row.2 ]} : entry)) rows.
Proof.
  intros Hrows Htext. unfold Listing.list_videos. rewrite Htext. unfold parse_listing.
  destruct rows as [|row rows]; [reflexivity|].
  change (map (fun row0 => printed_line row0.1.1 row0.1.2 row0.2) (row :: rows))
    with (printed_line row.1.1 row.1.2 row.2
          :: map (fun row0 => printed_line row0.1.1 row0.1.2 row0.2) rows).
  rewrite split_on_unlines.
  - change (printed_line row.1.1 row.1.2 row.2
            :: map (fun row0 => printed_line row0.1.1 row0.1.2 row0.2) rows)
      with (map (fun row0 => printed_line row0.1.1 row0.1.2 row0.2) (row :: rows)).
    apply entries_of_printed_lines. eapply Forall_impl; [exact Hrows|].
    intros r (Hi & _ & Hd & _). auto.
  - change (printed_line row.1.1 row.1.2 row.2
            :: map (fun row0 => printed_line row0.1.1 row0.1.2 row0.2) rows)
      with (map (fun row0 => printed_line row0.1.1 row0.1.2 row0.2) (row :: rows)).
    apply Forall_map. eapply Forall_impl; [exact Hrows|].
    intros r (_ & Hi & _ & Hd & Ht). simpl. unfold printed_line.
    rewrite !count_char_app. simpl count_char. rewrite count_char_app.
    simpl count_char. rewrite Hi, Hd, Ht. reflexivity.
Qed.

Lemma list_videos_durations url :
  forallb (fun v : entry => bool_decide (is_Some (v !! "duration"))) (list_videos url)
  = true.
Proof.
  apply forallb_forall. intros v Hv. apply list_elem_of_In in Hv.
  apply list_videos_shape in Hv as (id & duration & title & ->).
  apply bool_decide_eq_true.
  destruct (entry_lookup id duration title) as (_ & Hd & _). rewrite Hd. eauto.
Qed.

(** X9: [filter_videos] never raises on what [list_videos] returns: every
    entry read from a line has the [duration] key. *)
Theorem list_videos_filter url f :
  exists r, filter_videos float_of_str str_lower (list_videos url) f = Ok r.
Proof.
  rewrite filter_videos_filter, list_videos_durations. eauto.
Qed.

End Composition.

End ListingFacts.

(** ** cmd_download and download_videos *)

Module DownloadCmdFacts.
Import Download Listing DownloadCmd.

(** An entry as [list_videos] makes them. *)
Local Abbreviation listed v :=
  (exists id duration title : string,
     v = ({[ "id" := id; "duration" := duration; "title" := title ]} : entry)).

Lemma listed_items (v : entry) :
  listed v ->
  exists id duration title,
    item v "id" = Ok id /\ item v "title" = Ok title /\ v !! "duration" = Some duration.
Proof.
  intros (id & duration & title & ->).
  destruct (ListingFacts.entry_lookup id duration title) as (Hi & Hd & Ht).
  exists id, duration, title. unfold item. rewrite Hi, Ht. auto.
Qed.

Lemma slice_to_sublist {A} (n : Z) (xs : list A) : sublist (slice_to n xs) xs.
Proof. unfold slice_to. destruct (0 <=? n); apply sublist_take. Qed.

Lemma slice_to_length {A} (n : Z) (xs : list A) :
  0 < n -> (length (slice_to n xs) <= Z.to_nat n)%nat.
Proof.
  intros Hn. unfold slice_to. destruct (Z.leb_spec 0 n); [|lia].
  rewrite length_take. lia.
Qed.

Section Loops.

Context (float_of_str : string -> option spec_float).

Local Abbreviation listed_duration := (listed_duration float_of_str).
Local Abbreviation print_listing := (print_listing float_of_str).

(** Printing the list runs nothing and creates nothing. *)
Lemma print_listing_frame (i : Z) (videos : list entry) (c : console) :
  processes (print_listing i videos c).2 = processes c
  /\ created (print_listing i videos c).2 = created c.
Proof.
  revert i c. induction videos as [|v rest IH]; intros i c; [auto|].
  simpl. unfold and_then, lift.
  destruct (listed_duration v) as [dur|]; [|auto].
  destruct (format_duration dur) as [text|]; [|auto].
  destruct (item v "title") as [title|]; [|auto].
  simpl.
  match goal with |- context [print_listing ?j rest ?c1] =>
    destruct (IH j c1) as [Hp Hc] end.
  split; [exact Hp|exact Hc].
Qed.

Lemma listed_duration_raises (v : entry) (e : exn) :
  listed v -> listed_duration v = Raise e -> e = ValueError.
Proof.
  intros Hv. apply listed_items in Hv as (id & duration & title & _ & _ & Hd).
  unfold DownloadCmd.listed_duration, item. rewrite Hd. simpl.
  destruct (String.eqb duration "NA"); [discriminate|].
  destruct (float_of_str duration); [discriminate|]. intros [= <-]. reflexivity.
Qed.

Lemma format_duration_raises (dur : number) (e : exn) :
  format_duration dur = Raise e -> e = ValueError \/ e = OverflowError.
Proof.
  unfold format_duration, int_of. destruct dur as [z|f]; [discriminate|].
  destruct (float_ext f); simpl; try discriminate; intros [= <-]; auto.
Qed.

(** On entries with their three keys the listing fails only in reading a
    duration. *)
Lemma print_listing_raises (i : Z) (videos : list entry) (c : console) (e : exn) :
  Forall (fun v => listed v) videos ->
  (print_listing i videos c).1 = Raise e ->
  e = ValueError \/ e = OverflowError.
Proof.
  intros Hall. revert i c. induction Hall as [|v rest Hv _ IH]; intros i c;
    [discriminate|].
  simpl. unfold and_then, lift.
  destruct (listed_duration v) as [dur|e'] eqn:Hdur.
  - destruct (format_duration dur) as [text|e'] eqn:Htext.
    + apply listed_items in Hv as (id & duration & title & _ & Ht & _).
      rewrite Ht. simpl. apply IH.
    + simpl. intros [= <-]. apply (format_duration_raises dur). exact Htext.
  - simpl. intros [= <-]. left. apply (listed_duration_raises v); assumption.
Qed.

(** The listing returns when every duration is ["NA"] or a finite float. *)
Lemma print_listing_returns (i : Z) (videos : list entry) (c : console) :
  Forall (fun v => listed v) videos ->
  Forall (fun v : entry =>
            forall d, v !! "duration" = Some d ->
              d = "NA" \/ exists x m e, float_of_str d = Some x /\ float_ext x = EFin m e)
         videos ->
  (print_listing i videos c).1 = Ok tt.
Proof.
  intros Hall. revert i c. induction Hall as [|v rest Hv _ IH]; intros i c Hread;
    [reflexivity|].
  simpl. unfold and_then, lift.
  pose proof (Forall_inv Hread) as Hd. apply Forall_inv_tail in Hread.
  apply listed_items in Hv as (id & duration & title & _ & Ht & Hdur).
  specialize (Hd duration Hdur).
  assert (Hok : exists dur text, listed_duration v = Ok dur /\ format_duration dur = Ok text).
  { unfold DownloadCmd.listed_duration, item. rewrite Hdur. simpl.
    destruct (String.eqb_spec duration "NA") as [_|Hne].
    - eexists _, _. split; reflexivity.
    - destruct Hd as [->|(x & m & e & Hx & Hfin)]; [contradiction|].
      rewrite Hx. eexists (NFloat x), _. split; [reflexivity|].
      unfold format_duration, int_of. rewrite Hfin. reflexivity. }
  destruct Hok as (dur & text & -> & ->). rewrite Ht. simpl. apply IH. exact Hread.
Qed.

(** The listing does not return when the duration of an entry is neither
    ["NA"] nor read by [float]. *)
Lemma print_listing_unreadable (i : Z) (videos : list entry) (c : console) (v : entry) d :
  v ∈ videos -> v !! "duration" = Some d -> d <> "NA" -> float_of_str d = None ->
  exists e, (print_listing i videos c).1 = Raise e.
Proof.
  intros Hin Hd Hna Hx. revert i c.
  induction videos as [|v' rest IH]; intros i c; [inversion Hin|].
  simpl. unfold and_then, lift.
  destruct (listed_duration v') as [dur|e'] eqn:Hdur; [|eauto].
  destruct (format_duration dur) as [text|e']; [|eauto].
  destruct (item v' "title") as [title|e']; [|eauto].
  simpl. apply elem_of_cons in Hin as [<-|Hin]; [|apply IH; exact Hin].
  exfalso. unfold DownloadCmd.listed_duration, item in Hdur. rewrite Hd in Hdur.
  simpl in Hdur. destruct (String.eqb_spec d "NA"); [contradiction|].
  rewrite Hx in Hdur. discriminate Hdur.
Qed.

End Loops.

(** The argument list of the download of one video. *)
Local Abbreviation command output_path fmt id :=
  ["yt-dlp"; "-f"; fmt; "--merge-output-format"; "mp4";
   "-o"; output_path ++ "/%(title)s.%(ext)s";
   "https://www.youtube.com/watch?v=" ++ id].

(** The loop of [download_videos] runs at most one process for each video
    and creates nothing. *)
Lemma download_each_frame (videos : list entry) (output_path fmt : string) (c : console) :
  created (download_each videos output_path fmt c).2 = created c
  /\ exists ran, processes (download_each videos output_path fmt c).2
                 = (processes c ++ ran)%list
                 /\ (length ran <= length videos)%nat.
Proof.
  revert c. induction videos as [|v rest IH]; intros c.
  - split; [reflexivity|]. exists []. rewrite app_nil_r. auto.
  - simpl. unfold and_then, lift.
    destruct (item v "id") as [id|]; [|split; [reflexivity|]; exists [];
                                        rewrite app_nil_r; simpl; split; [reflexivity|lia]].
    destruct (item v "title") as [title|]; [|split; [reflexivity|]; exists [];
                                               rewrite app_nil_r; simpl; split; [reflexivity|lia]].
    simpl.
    match goal with |- context [download_each rest output_path fmt ?c1] =>
      destruct (IH c1) as (Hc & ran & Hran & Hlen) end.
    split; [rewrite Hc; reflexivity|].
    eexists (_ :: ran). rewrite Hran. simpl. rewrite <- app_assoc. simpl.
    split; [reflexivity|lia].
Qed.

(** On entries with their keys every download is run, in order. *)
Lemma download_each_listed (videos : list entry) (output_path fmt : string) (c : console) :
  Forall (fun v => listed v) videos ->
  (download_each videos output_path fmt c).1 = Ok tt
  /\ processes (download_each videos output_path fmt c).2
     = (processes c
        ++ map (fun v : entry =>
                  command output_path fmt (default EmptyString (v !! "id"))) videos)%list.
Proof.
  intros Hall. revert c. induction Hall as [|v rest Hv _ IH]; intros c.
  - simpl. rewrite app_nil_r. auto.
  - simpl. unfold and_then, lift.
    apply listed_items in Hv as (id & duration & title & Hi & Ht & _).
    rewrite Hi, Ht. simpl.
    match goal with |- context [download_each rest output_path fmt ?c1] =>
      destruct (IH c1) as (Hok & Hran) end.
    split; [exact Hok|]. rewrite Hran. simpl. rewrite <- app_assoc. simpl.
    unfold item in Hi. destruct (v !! "id"); [|discriminate Hi].
    injection Hi as ->. reflexivity.
Qed.

Section Command.

Context (float_of_str : string -> option spec_float).
Context (str_lower : string -> string).
Context (str_strip : string -> string).
Context (flat_playlist : string -> string).
Context (path_str : string -> string).

Local Abbreviation list_videos := (list_videos str_strip flat_playlist).
Local Abbreviation filter_videos := (filter_videos float_of_str str_lower).
Local Abbreviation cmd_download :=
  (cmd_download float_of_str str_lower str_strip flat_playlist path_str).

Local Abbreviation cut a r := (truncate (max a) r).

Lemma cut_sublist (a : args) (r : list entry) : sublist (cut a r) r.
Proof.
  unfold truncate. destruct (max a) as [n|]; [|reflexivity].
  destruct (n =? 0); [reflexivity|apply slice_to_sublist].
Qed.

Lemma cut_listed (a : args) (r : list entry) :
  filter_videos (list_videos (url a)) (filters_of a) = Ok r ->
  Forall (fun v => listed v) (cut a r).
Proof.
  intros Hr. apply Forall_forall. intros v Hv.
  apply (ListingFacts.list_videos_shape str_strip flat_playlist (url a)).
  apply (filter_videos_from float_of_str str_lower _ _ r v Hr).
  eapply elem_of_sublist; [exact Hv|apply cut_sublist].
Qed.

Lemma listing_filtered (a : args) :
  exists r, filter_videos (list_videos (url a)) (filters_of a) = Ok r.
Proof.
  rewrite filter_videos_filter, ListingFacts.list_videos_durations. eauto.
Qed.

Ltac open_cmd a r Hr :=
  destruct (listing_filtered a) as [r Hr];
  unfold DownloadCmd.cmd_download, and_then, lift, print, ret;
  rewrite Hr; cbv beta iota zeta.

(** X10: without [--download] the command starts no download and creates
    no directory, whether it returns or raises. *)
Theorem cmd_download_lists_only (a : args) (c : console) :
  download a = false ->
  processes (cmd_download a c).2 = processes c
  /\ created (cmd_download a c).2 = created c.
Proof.
  intros Hd. open_cmd a r Hr. rewrite Hd.
  destruct (cut a r) as [|v t]; [auto|].
  match goal with |- context [print_listing ?f ?i ?vs ?c1] =>
    pose proof (print_listing_frame f i vs c1) as [Hp Hc];
    destruct (print_listing f i vs c1) as [[[]|e] c2] end;
    simpl in *; auto.
Qed.

(** X11: with [-n N], [N] above zero, at most [N] downloads are run,
    whatever the channel holds. *)
Theorem cmd_download_max (a : args) (c : console) (n : Z) :
  max a = Some n -> 0 < n ->
  exists ran, processes (cmd_download a c).2 = (processes c ++ ran)%list
              /\ (length ran <= Z.to_nat n)%nat.
Proof.
  intros Hmax Hn. open_cmd a r Hr.
  assert (Hlen : (length (cut a r) <= Z.to_nat n)%nat).
  { unfold truncate. rewrite Hmax. destruct (Z.eqb_spec n 0); [lia|].
    apply slice_to_length. exact Hn. }
  destruct (cut a r) as [|v t] eqn:Hcut.
  - exists []. rewrite app_nil_r. simpl. split; [reflexivity|lia].
  - match goal with |- context [print_listing ?f ?i ?vs ?c1] =>
      pose proof (print_listing_frame f i vs c1) as [Hp _];
      destruct (print_listing f i vs c1) as [[[]|e] c2] end; simpl in Hp.
    + destruct (download a).
      * unfold download_videos, and_then, mkdir. cbv beta iota zeta.
        match goal with |- context [download_each ?vs ?p ?f ?c1] =>
          pose proof (download_each_frame vs p f c1) as (_ & ran & Hran & Hle);
          destruct (download_each vs p f c1) as [[[]|e] c3] end;
          simpl in Hran |- *; exists ran; rewrite Hran, Hp; split; try reflexivity; lia.
      * exists []. rewrite app_nil_r. simpl. rewrite Hp. split; [reflexivity|simpl; lia].
    + exists []. rewrite app_nil_r. simpl. rewrite Hp. split; [reflexivity|simpl; lia].
Qed.

(** X12: failures of the operating system apart, the command raises
    nothing but [ValueError] and [OverflowError], which come from reading
    and formatting a duration for the list; in particular no [KeyError]. *)
Theorem cmd_download_raises (a : args) (c : console) (e : exn) :
  (cmd_download a c).1 = Raise e -> e = ValueError \/ e = OverflowError.
Proof.
  open_cmd a r Hr. pose proof (cut_listed a r Hr) as Hall.
  destruct (cut a r) as [|v t]; [discriminate|].
  match goal with |- context [print_listing ?f ?i ?vs ?c1] =>
    pose proof (print_listing_raises f i vs c1) as Hraise;
    destruct (print_listing f i vs c1) as [[[]|e'] c2] end; simpl in Hraise.
  - destruct (download a); [|discriminate].
    unfold download_videos, and_then, mkdir. cbv beta iota zeta.
    match goal with |- context [download_each ?vs ?p ?f ?c1] =>
      pose proof (download_each_listed vs p f c1 Hall) as [Hok _];
      destruct (download_each vs p f c1) as [[[]|e'] c3] end;
      simpl in Hok; [discriminate|discriminate Hok].
  - simpl. intros [= <-]. apply (Hraise e' Hall). reflexivity.
Qed.

(** X13: in the default mode (neither [--shorts] nor [--only-shorts]) the
    command returns, with status 0 or 1, as soon as every duration that
    [float] reads is finite: an unavailable or malformed duration does no
    harm, the minimum of 60 seconds has dropped the entry. *)
Theorem cmd_download_default_returns (a : args) (c : console) :
  shorts a = false -> only_shorts a = false ->
  (forall v d x, v ∈ list_videos (url a) -> v !! "duration" = Some d ->
     float_of_str d = Some x -> exists m e, float_ext x = EFin m e) ->
  (cmd_download a c).1 = Ok 0 \/ (cmd_download a c).1 = Ok 1.
Proof.
  intros Hs Ho Hfin. open_cmd a r Hr. pose proof (cut_listed a r Hr) as Hall.
  assert (Hread : Forall (fun v : entry =>
            forall d, v !! "duration" = Some d ->
              d = "NA" \/ exists x m e, float_of_str d = Some x /\ float_ext x = EFin m e)
            (cut a r)).
  { apply Forall_forall. intros v Hv d Hd. right.
    assert (Hvr : v ∈ r) by (eapply elem_of_sublist; [exact Hv|apply cut_sublist]).
    assert (Hk : Download.keeps float_of_str str_lower (filters_of a) v = Ok true).
    { apply (filter_videos_kept float_of_str str_lower) in Hr.
      rewrite Forall_forall in Hr. apply Hr. exact Hvr. }
    destruct (keeps_min_readable float_of_str str_lower _ (NInt 60) v Hk)
      as (d' & x & Hd' & _ & Hx).
    - unfold filters_of. simpl. rewrite Hs, Ho. reflexivity.
    - reflexivity.
    - assert (d' = d) by congruence. subst d'.
      destruct (Hfin v d x) as (m & e & Hm); try assumption.
      + exact (filter_videos_from float_of_str str_lower _ _ r v Hr Hvr).
      + eauto. }
  destruct (cut a r) as [|v t]; [auto|]. left.
  match goal with |- context [print_listing ?f ?i ?vs ?c1] =>
    pose proof (print_listing_returns f i vs c1 Hall Hread) as Hok;
    destruct (print_listing f i vs c1) as [[[]|e'] c2] end; simpl in Hok;
    [|discriminate Hok].
  destruct (download a); [|reflexivity].
  unfold download_videos, and_then, mkdir. cbv beta iota zeta.
  match goal with |- context [download_each ?vs ?p ?f ?c1] =>
    pose proof (download_each_listed vs p f c1 Hall) as [Hok' _];
    destruct (download_each vs p f c1) as [[[]|e'] c3] end;
    simpl in Hok'; [reflexivity|discriminate Hok'].
Qed.

(** X14: with [--shorts] or [--only-shorts] the command does not return
    when the channel lists a video whose duration is neither ["NA"] nor read
    by [float], and whose title has the keywords: the filter keeps it as an
    entry of 0 seconds, and line 45 reads the duration again outside a
    [try]. *)
Theorem cmd_download_shorts_unreadable (a : args) (c : console) (v : entry) (d : string) :
  shorts a = true \/ only_shorts a = true ->
  max a = None ->
  v ∈ list_videos (url a) ->
  v !! "duration" = Some d -> d <> "NA" -> float_of_str d = None ->
  misses_keyword str_lower (filters_of a) v = false ->
  exists e, (cmd_download a c).1 = Raise e.
Proof.
  intros Hmode Hmax Hv Hd Hna Hx Hkw. open_cmd a r Hr.
  assert (Hvr : v ∈ r).
  { apply (filter_videos_keeps float_of_str str_lower _ _ r v Hr Hv).
    assert (Hmin : below_min (filters_of a) (NInt 0) = false).
    { unfold below_min, filters_of. simpl.
      destruct Hmode as [-> | ->]; [|rewrite orb_true_r]; reflexivity. }
    assert (Hcap : above_max (filters_of a) (NInt 0) = false).
    { unfold above_max, filters_of. simpl. destruct (only_shorts a); reflexivity. }
    unfold Download.keeps, parse_duration. rewrite Hd.
    destruct (String.eqb_spec d "NA"); [contradiction|]. rewrite Hx. simpl.
    rewrite Hmin, Hcap, Hkw. reflexivity. }
  unfold truncate. rewrite Hmax.
  destruct r as [|v0 r0]; [inversion Hvr|].
  match goal with |- context [print_listing ?f ?i ?vs ?c1] =>
    destruct (print_listing_unreadable f i vs c1 v d Hvr Hd Hna Hx) as [e He];
    destruct (print_listing f i vs c1) as [[[]|e'] c2] end; simpl in He;
    [discriminate He|eauto].
Qed.

Lemma slice_to_nil {A} (n : Z) (xs : list A) :
  0 < n -> slice_to n xs = [] -> xs = [].
Proof.
  unfold slice_to. intros Hn. destruct (Z.leb_spec 0 n); [|lia].
  destruct xs as [|x xs]; [reflexivity|].
  destruct (Z.to_nat n) as [|k] eqn:Hk; [lia|discriminate].
Qed.

(** X15: when [-n] is absent or not negative, the exit status is 1 exactly
    when the filters leave no video; any video left gives status 0 or an
    exception. *)
Theorem cmd_download_status (a : args) (c : console) (r : list entry) :
  filter_videos (list_videos (url a)) (filters_of a) = Ok r ->
  (forall n, max a = Some n -> 0 <= n) ->
  ((cmd_download a c).1 = Ok 1 <-> r = [])
  /\ (r <> [] ->
      (cmd_download a c).1 = Ok 0 \/ exists e, (cmd_download a c).1 = Raise e).
Proof.
  intros Hr Hn.
  unfold DownloadCmd.cmd_download, and_then, lift, print, ret.
  rewrite Hr. cbv beta iota zeta.
  assert (Hcut : cut a r = [] <-> r = []).
  { unfold truncate. destruct (max a) as [n|]; [|reflexivity].
    destruct (Z.eqb_spec n 0); [reflexivity|].
    split; [apply slice_to_nil; specialize (Hn n eq_refl); lia|intros ->].
    unfold slice_to. destruct (0 <=? n); apply take_nil. }
  destruct (cut a r) as [|v t].
  - assert (Hnil : r = []) by (apply Hcut; reflexivity).
    split; [split; [intros _; exact Hnil|reflexivity]|].
    intros Hleft. contradiction.
  - assert (Hsome : r <> []) by (intros H; apply Hcut in H; discriminate H).
    assert (Hstatus : forall out : result Z, out = Ok 0 \/ (exists e, out = Raise e) ->
              (out = Ok 1 <-> r = [])
              /\ (r <> [] -> out = Ok 0 \/ exists e, out = Raise e)).
    { intros out Hout. split; [|intros _; exact Hout].
      split; [|intros H; contradiction].
      intros ->. destruct Hout as [H|[e H]]; discriminate H. }
    apply Hstatus.
    match goal with |- context [print_listing ?f ?i ?vs ?c1] =>
      destruct (print_listing f i vs c1) as [[[]|e'] c2] end; [|right; eauto].
    destruct (download a); [|left; reflexivity].
    unfold download_videos, and_then, mkdir. cbv beta iota zeta.
    match goal with |- context [download_each ?vs ?p ?f ?c1] =>
      destruct (download_each vs p f c1) as [[[]|e'] c3] end;
      [left; reflexivity|right; eauto].
Qed.

Lemma download_each_app (pre rest : list entry) (output_path fmt : string) (c : console) :
  Forall (fun v => listed v) pre ->
  exists c1,
    download_each (pre ++ rest) output_path fmt c = download_each rest output_path fmt c1
    /\ processes c1
       = (processes c
          ++ map (fun v : entry =>
                    command output_path fmt (default EmptyString (v !! "id"))) pre)%list
    /\ created c1 = created c.
Proof.
  intros Hall. revert c. induction Hall as [|v pre Hv _ IH]; intros c.
  - exists c. simpl. rewrite app_nil_r. auto.
  - simpl. unfold and_then at 1 2 3 4, lift.
    apply listed_items in Hv as (id & duration & title & Hi & Ht & _).
    rewrite Hi, Ht. simpl.
    match goal with |- context [download_each (pre ++ rest) output_path fmt ?c1] =>
      destruct (IH c1) as (c2 & Heq & Hp & Hc) end.
    exists c2. split; [exact Heq|]. split; [|exact Hc].
    rewrite Hp. simpl. rewrite <- app_assoc. simpl.
    unfold item in Hi. destruct (v !! "id"); [|discriminate Hi].
    injection Hi as ->. reflexivity.
Qed.

(** X16: [download_videos] stops with [KeyError: 'id'] at the first entry
    that has no [id], after the downloads of the entries before it, which it
    has run in order, each with the format expression of the resolution and
    the watch URL of the video. *)
Theorem download_videos_missing_id (pre post : list entry) (v : entry)
    (output_dir resolution : string) (c : console) :
  Forall (fun v => listed v) pre ->
  v !! "id" = None ->
  (download_videos path_str (pre ++ v :: post) output_dir resolution c).1
  = Raise (KeyError "id")
  /\ processes (download_videos path_str (pre ++ v :: post) output_dir resolution c).2
     = (processes c
        ++ map (fun v : entry =>
                  command (path_str output_dir) (download_videos_fmt resolution)
                    (default EmptyString (v !! "id"))) pre)%list.
Proof.
  intros Hpre Hid. unfold download_videos, and_then, mkdir. cbv beta iota zeta.
  match goal with |- context [download_each (pre ++ v :: post) ?p ?f ?c1] =>
    destruct (download_each_app pre (v :: post) p f c1 Hpre) as (c2 & -> & Hp & _) end.
  simpl. unfold and_then, lift, item. rewrite Hid. simpl.
  split; [reflexivity|exact Hp].
Qed.

End Command.

End DownloadCmdFacts.
(** ** to_jsonable: what it raises and what it returns *)

Module JsonableLaws.
Import Transcribe Spec.

Lemma list_comp_raises {A B} (f : A -> result B) (xs : list A) (e : exn) :
  list_comp f xs = Raise e -> exists x, x ∈ xs /\ f x = Raise e.
Proof.
  induction xs as [|x xs IH]; simpl; [discriminate|].
  destruct (f x) as [y|e'] eqn:Hx; simpl.
  - destruct (list_comp f xs) as [ys|e']; simpl; [discriminate|].
    intros [= <-]. destruct (IH eq_refl) as (x' & Hin & Hx').
    exists x'. split; [apply list_elem_of_further; exact Hin|exact Hx'].
  - intros [= <-]. exists x. split; [apply list_elem_of_here|exact Hx].
Qed.

(** What a dictionary comprehension raises comes from one of its keys or
    from one of its values. *)
Lemma dict_comp_raises {K A V} (key_of : K -> result string) (f : A -> result V)
    (items : list (K * A)) (acc : list (string * V)) (e : exn) :
  dict_comp key_of f items acc = Raise e ->
  (exists k, k ∈ map fst items /\ key_of k = Raise e)
  \/ (exists x, x ∈ map snd items /\ f x = Raise e).
Proof.
  revert acc. induction items as [|[k x] items IH]; intros acc; simpl; [discriminate|].
  destruct (key_of k) as [s|e'] eqn:Hk; simpl.
  - destruct (f x) as [y|e'] eqn:Hx; simpl.
    + intros H. destruct (IH _ H) as [(k' & Hin & Hk')|(x' & Hin & Hx')].
      * left. exists k'. split; [apply list_elem_of_further; exact Hin|exact Hk'].
      * right. exists x'. split; [apply list_elem_of_further; exact Hin|exact Hx'].
    + intros [= <-]. right. exists x. split; [apply list_elem_of_here|exact Hx].
  - intros [= <-]. left. exists k. split; [apply list_elem_of_here|exact Hk].
Qed.



(** X19: whatever [to_jsonable] returns is a JSON value, on any input,
    self-referential or not, as long as numpy's [item()] and [tolist()]
    return JSON values (as when numpy is not installed). *)
Theorem to_jsonable_returns_json (h : store) (depth : nat) (l : loc) (v : value) :
  (forall l' o x, h l' = PObject o ->
     numpy o = Some (NpGeneric (Ok x)) \/ numpy o = Some (NpArray (Ok x)) ->
     json_safe x = true) ->
  to_jsonable h depth l = Ok v -> json_safe v = true.
Proof.
  intros Hnp Hv. apply (JsonableFacts.returned_json h depth l v); [|exact Hv].
  intros l' o x E Hx. exact (Hnp l' o x E Hx).
Qed.

Lemma dict_comp_in_order {K A V} (key_of : K -> result string) (f : A -> result V)
    (items : list (K * A)) (acc kvs : list (string * V)) :
  dict_comp key_of f items acc = Ok kvs ->
  NoDup (map Ok (map fst acc) ++ map key_of (map fst items))%list ->
  exists new, kvs = (acc ++ new)%list
    /\ Forall2 (fun item kv => key_of (fst item) = Ok (fst kv) /\ f (snd item) = Ok (snd kv))
         items new.
Proof.
  revert acc. induction items as [|[k x] items IH]; intros acc; simpl.
  - intros [= <-] _. exists []. rewrite app_nil_r. split; [reflexivity|constructor].
  - destruct (key_of k) as [sk|] eqn:Hk; simpl; [|discriminate].
    destruct (f x) as [y|] eqn:Hx; simpl; [|discriminate].
    intros Hc Hnd.
    assert (Hfresh : sk ∉ map fst acc).
    { apply NoDup_app in Hnd as (_ & Hdisj & _).
      intros Hin. apply (Hdisj (Ok sk)); [|apply list_elem_of_here].
      apply list_elem_of_fmap. exists sk. auto. }
    rewrite (JsonableFacts.dict_set_fresh _ _ _ Hfresh) in Hc.
    apply IH in Hc as (new & -> & Hnew).
    + exists ((sk, y) :: new). rewrite <- app_assoc. split; [reflexivity|].
      constructor; [split; [exact Hk|exact Hx]|exact Hnew].
    + rewrite !map_app. simpl. rewrite <- app_assoc. exact Hnd.
Qed.

(** X20: a dictionary whose keys have different [str] comes out with one
    entry for each of its entries, in the same order, under the [str] of
    the key (the decimal digits of an integer key) and with the converted
    value. *)
Theorem to_jsonable_dict_order (h : store) (d : nat) (l : loc)
    (items : list (key * loc)) (v : value) :
  h l = PDict items ->
  NoDup (map str_of_key (map fst items)) ->
  to_jsonable h (S d) l = Ok v ->
  exists kvs, v = VDict kvs
    /\ map Ok (map fst kvs) = map str_of_key (map fst items)
    /\ Forall2 (fun item kv => to_jsonable h d (snd item) = Ok (snd kv)) items kvs.
Proof.
  intros E Hnd. simpl. rewrite E.
  destruct (dict_comp str_of_key (to_jsonable h d) items []) as [kvs|] eqn:Hc; simpl;
    [|discriminate].
  intros [= <-]. exists kvs. split; [reflexivity|].
  apply dict_comp_in_order in Hc as (new & -> & Hnew); [|exact Hnd].
  simpl. split.
  - clear -Hnew. induction Hnew as [|item kv items new [Hk _] _ IH]; [reflexivity|].
    simpl. rewrite Hk, IH. reflexivity.
  - eapply Forall2_impl; [exact Hnew|]. intros item kv [_ H]. exact H.
Qed.

(** X21: of an object converted through its [__dict__], only the
    attributes whose name does not start with an underscore appear, each
    once; the other outcome is the [repr] of the object. *)
Theorem to_jsonable_public_attributes (h : store) (d : nat) (l : loc) (o : object)
    (attrs : list (string * loc)) (v : value) :
  h l = PObject o ->
  dataclass o = None -> numpy o = None -> to_dict o = Ok None ->
  vars o = Ok (Some attrs) ->
  to_jsonable h (S d) l = Ok v ->
  (exists s, repr o = Ok s /\ v = VStr s)
  \/ exists kvs, v = VDict kvs
       /\ NoDup (map fst kvs)
       /\ forall name, name ∈ map fst kvs
            <-> (name ∈ map fst attrs /\ startswith name "_" = false).
Proof.
  intros E Hdc Hnp Hto Hvars. simpl. rewrite E, Hdc, Hnp, Hto, Hvars. simpl.
  destruct (dict_comp Ok (to_jsonable h d) _ []) as [kvs|] eqn:Hc; simpl.
  - intros [= <-]. right. exists kvs. split; [reflexivity|].
    apply JsonableFacts.dict_comp_keys in Hc as (Hnd & Hkeys & _);
      [|apply NoDup_nil; exact I].
    split; [exact Hnd|]. intros name. rewrite Hkeys. simpl. split.
    + intros [H|H]; [inversion H|].
      apply list_elem_of_fmap in H as (k & Hk & Hin). injection Hk as ->.
      apply list_elem_of_fmap in Hin as ([k' x] & -> & Hin).
      apply list_elem_of_In, filter_In in Hin as [Hin Hpub]. simpl in *.
      split; [|apply negb_true_iff; exact Hpub].
      apply list_elem_of_fmap. exists (k', x). split; [reflexivity|].
      apply list_elem_of_In. exact Hin.
    + intros [Hin Hpub]. right.
      apply list_elem_of_fmap in Hin as ([k x] & -> & Hin). simpl in Hpub.
      apply list_elem_of_fmap. exists k. split; [reflexivity|].
      apply list_elem_of_fmap. exists (k, x). split; [reflexivity|].
      apply list_elem_of_In, filter_In. split; [apply list_elem_of_In; exact Hin|].
      simpl. rewrite Hpub. reflexivity.
  - destruct (repr o) as [s|]; simpl; [|discriminate].
    intros [= <-]. left. exists s. auto.
Qed.

End JsonableLaws.

(** ** The files of a transcription *)

Module TranscriptFacts.
Import Transcribe Cli Transcripts.

(** X22: the audio file that [download_audio_with_ytdlp] reports is named
    after the base name it returns, with the target format as extension,
    and its path is the prepared path with another extension: the
    transcripts written under that base name go with the audio file. *)
Theorem audio_paths_names (prepared_path target_format : string) :
  Spec.slash_free target_format = true ->
  let '(wav_path, base_name) := audio_paths prepared_path target_format in
  basename wav_path = base_name ++ "." ++ target_format
  /\ exists ext, prepared_path = fst (splitext prepared_path) ++ ext
                 /\ wav_path = fst (splitext prepared_path) ++ "." ++ target_format.
Proof.
  intros Hfree. unfold audio_paths. split.
  - apply CliFacts.basename_app_free.
    change ("." ++ target_format) with (String "." target_format). simpl.
    exact Hfree.
  - exists (snd (splitext prepared_path)).
    split; [symmetry; apply CliFacts.splitext_app|reflexivity].
Qed.

Section Writer.

Context (abspath : string -> string).
Context (text_of : loc -> result string).
Context (json_dump : value -> string * option exn).

Local Abbreviation write_transcripts := (write_transcripts abspath text_of json_dump).

(** X23: [write_transcripts] touches no file but the two transcripts, and no
    directory, whether it returns or raises. *)
Theorem write_transcripts_frame (h : store) (depth : nat)
    (output_directory base_name : string) (result : loc) (w : world) (p : string) :
  p <> abspath (join output_directory (base_name ++ ".txt")) ->
  p <> abspath (join output_directory (base_name ++ ".json")) ->
  files (write_transcripts h depth output_directory base_name result w).2 !! p
  = files w !! p
  /\ dirs (write_transcripts h depth output_directory base_name result w).2 = dirs w.
Proof.
  intros Ht Hj. unfold Transcripts.write_transcripts, write_file.
  destruct (text_of result) as [text|e]; simpl.
  - destruct (to_jsonable h depth result) as [v|e]; simpl.
    + destruct (json_dump v) as [written [e|]]; simpl;
        rewrite !lookup_insert_ne by congruence; auto.
    + rewrite !lookup_insert_ne by congruence. auto.
  - rewrite !lookup_insert_ne by congruence. auto.
Qed.

(** X24: when [to_jsonable] raises, the exception goes through after the
    text file has been written in full and the JSON file has been opened
    for writing: the first holds the text, the second is left empty,
    whatever it held before. *)
Theorem write_transcripts_json_failure (h : store) (depth : nat)
    (output_directory base_name : string) (result : loc) (w : world)
    (text : string) (e : exn) :
  text_of result = Ok text ->
  to_jsonable h depth result = Raise e ->
  abspath (join output_directory (base_name ++ ".txt"))
  <> abspath (join output_directory (base_name ++ ".json")) ->
  (write_transcripts h depth output_directory base_name result w).1 = Raise e
  /\ files (write_transcripts h depth output_directory base_name result w).2
     !! abspath (join output_directory (base_name ++ ".txt")) = Some text
  /\ files (write_transcripts h depth output_directory base_name result w).2
     !! abspath (join output_directory (base_name ++ ".json")) = Some EmptyString.
Proof.
  intros Htext Hjson Hne. unfold Transcripts.write_transcripts, write_file.
  rewrite Htext, Hjson. simpl.
  split; [reflexivity|]. split.
  - rewrite lookup_insert_ne by congruence. apply lookup_insert_eq.
  - apply lookup_insert_eq.
Qed.

(** X25: when nothing raises, [write_transcripts] returns the two paths
    the specification describes, the files [base_name.txt] and
    [base_name.json] of the output directory; the first file holds
    [result.text] as it is and the second what [json.dump] wrote for
    [to_jsonable(result)]. *)
Theorem write_transcripts_success (h : store) (depth : nat)
    (output_directory base_name : string) (result : loc) (w : world)
    (text written : string) (v : value) (text_path json_path : string) :
  text_of result = Ok text ->
  to_jsonable h depth result = Ok v ->
  json_dump v = (written, None) ->
  Spec.slash_free base_name = true ->
  Spec.inside output_directory (base_name ++ ".txt") text_path ->
  Spec.inside output_directory (base_name ++ ".json") json_path ->
  abspath text_path <> abspath json_path ->
  (write_transcripts h depth output_directory base_name result w).1
  = Ok (text_path, json_path)
  /\ basename text_path = base_name ++ ".txt"
  /\ basename json_path = base_name ++ ".json"
  /\ files (write_transcripts h depth output_directory base_name result w).2
     !! abspath text_path = Some text
  /\ files (write_transcripts h depth output_directory base_name result w).2
     !! abspath json_path = Some written.
Proof.
  intros Htext Hv Hdump Hfree Htxt Hjson Hne.
  assert (Hname : forall ext, Spec.slash_free ext = true ->
            Spec.slash_free (base_name ++ ext) = true).
  { intros ext H. rewrite FmtFacts.slash_free_app, Hfree, H. reflexivity. }
  apply CliFacts.inside_join in Htxt; [|apply Hname; reflexivity].
  apply CliFacts.inside_join in Hjson; [|apply Hname; reflexivity].
  subst text_path json_path.
  unfold Transcripts.write_transcripts, write_file.
  rewrite Htext, Hv, Hdump. simpl.
  split; [reflexivity|].
  split; [apply CliFacts.basename_join, Hname; reflexivity|].
  split; [apply CliFacts.basename_join, Hname; reflexivity|].
  split.
  - rewrite !lookup_insert_ne by congruence. apply lookup_insert_eq.
  - apply lookup_insert_eq.
Qed.

End Writer.

End TranscriptFacts.

(** ** The further properties on sample inputs *)

Module LawExamples.
Import Download Listing DownloadCmd Transcribe Fixtures.

Example list_videos_channel :
  list_videos strip channel "u"
  = [Samples.video "a" "45" "Road crossing"; Samples.video "b" "NA" "Crossing";
     Samples.video "c" "90.5" "River CROSSING"; Samples.video "e" "601" "crossing the sea"].
Proof. vm_compute. reflexivity. Qed.

Example cmd_download_channel :
  cmd_download channel (plain true None false) blank
  = (Ok 0,
     {| stdout :=
          ["Fetching videos from https://www.youtube.com/@rivers...";
           String newline ("Found 2 videos:" ++ String newline EmptyString);
           "  1. [01:30] River CROSSING";
           "  2. [10:01] crossing the sea";
           EmptyString;
           "Downloading: River CROSSING...";
           "Downloading: crossing the sea..."];
        processes :=
          [["yt-dlp"; "-f"; download_videos_fmt "1080"; "--merge-output-format"; "mp4";
            "-o"; "downloads/%(title)s.%(ext)s"; "https://www.youtube.com/watch?v=c"];
           ["yt-dlp"; "-f"; download_videos_fmt "1080"; "--merge-output-format"; "mp4";
            "-o"; "downloads/%(title)s.%(ext)s"; "https://www.youtube.com/watch?v=e"]];
        created := ["downloads"] |}).
Proof. vm_compute. reflexivity. Qed.

Lemma filter_videos_sublist_witness :
  sublist [crossing_c] Samples.listing.
Proof.
  apply (filter_videos_sublist Runtime.float Runtime.lower Samples.listing Samples.crossing).
  vm_compute. reflexivity.
Defined.

Lemma filter_videos_complete_witness : crossing_c ∈ [crossing_c].
Proof.
  eapply (filter_videos_complete Runtime.float Runtime.lower Samples.listing
            Samples.crossing [crossing_c] crossing_c).
  - vm_compute. reflexivity.
  - do 2 apply list_elem_of_further. apply list_elem_of_here.
  - vm_compute. reflexivity.
  - vm_compute. reflexivity.
  - vm_compute. reflexivity.
  - vm_compute. reflexivity.
Defined.

Lemma filter_videos_drops_unreadable_witness :
  exists d x, crossing_c !! "duration" = Some d /\ d <> "NA" /\ Runtime.float d = Some x.
Proof.
  apply (filter_videos_drops_unreadable Runtime.float Runtime.lower Samples.listing
           Samples.crossing [crossing_c] (NInt 60) crossing_c).
  - vm_compute. reflexivity.
  - reflexivity.
  - reflexivity.
  - apply list_elem_of_here.
Defined.

Lemma list_videos_round_trip_witness :
  list_videos strip channel "u"
  = map (fun row : string * string * string =>
           ({[ "id" := row.1.1; "duration" := row.1.2; "title" := row.2 ]} : entry)) rows.
Proof.
  apply (ListingFacts.list_videos_round_trip strip channel "u" rows).
  - repeat constructor.
  - vm_compute. reflexivity.
Defined.

Lemma cmd_download_lists_only_witness :
  processes (cmd_download channel (plain false None false) blank).2 = processes blank
  /\ created (cmd_download channel (plain false None false) blank).2 = created blank.
Proof.
  apply (DownloadCmdFacts.cmd_download_lists_only Runtime.float Runtime.lower strip
           channel path_str (plain false None false) blank).
  reflexivity.
Defined.

Lemma cmd_download_max_witness :
  exists ran,
    processes (cmd_download channel (plain true (Some 1) false) blank).2
    = (processes blank ++ ran)%list
    /\ (length ran <= Z.to_nat 1)%nat.
Proof.
  apply (DownloadCmdFacts.cmd_download_max Runtime.float Runtime.lower strip
           channel path_str (plain true (Some 1) false) blank 1).
  - reflexivity.
  - lia.
Defined.

Lemma cmd_download_raises_witness :
  ValueError = ValueError \/ ValueError = OverflowError.
Proof.
  apply (DownloadCmdFacts.cmd_download_raises Runtime.float Runtime.lower strip
           nan_channel path_str (plain false None false) blank ValueError).
  vm_compute. reflexivity.
Defined.

Lemma odd_channel_videos :
  list_videos strip odd_channel "https://www.youtube.com/@rivers"
  = [Samples.video "a" "45" "Road crossing"; Samples.video "b" "NA" "Crossing";
     Samples.video "c" "90.5" "River CROSSING"; Samples.video "e" "601" "crossing the sea";
     Samples.video "f" "1:30" "Crossing again"].
Proof. vm_compute. reflexivity. Defined.

Lemma cmd_download_default_returns_witness :
  (cmd_download odd_channel (plain true None false) blank).1 = Ok 0
  \/ (cmd_download odd_channel (plain true None false) blank).1 = Ok 1.
Proof.
  apply (DownloadCmdFacts.cmd_download_default_returns Runtime.float Runtime.lower strip
           odd_channel path_str (plain true None false) blank).
  - reflexivity.
  - reflexivity.
  - intros v d x Hv Hd Hx.
    change (DownloadCmd.url (plain true None false))
      with "https://www.youtube.com/@rivers" in Hv.
    rewrite odd_channel_videos in Hv.
    repeat (apply elem_of_cons in Hv as [->|Hv]); [..|inversion Hv];
      vm_compute in Hd; injection Hd as <-; vm_compute in Hx;
      first [discriminate Hx|injection Hx as <-; eexists _, _; reflexivity].
Defined.

Lemma cmd_download_shorts_unreadable_witness :
  exists e, (cmd_download odd_channel (plain false None true) blank).1 = Raise e.
Proof.
  apply (DownloadCmdFacts.cmd_download_shorts_unreadable Runtime.float Runtime.lower strip
           odd_channel path_str (plain false None true) blank
           (Samples.video "f" "1:30" "Crossing again") "1:30").
  - left. reflexivity.
  - reflexivity.
  - change (DownloadCmd.url (plain false None true))
      with "https://www.youtube.com/@rivers".
    rewrite odd_channel_videos. do 4 apply list_elem_of_further. apply list_elem_of_here.
  - vm_compute. reflexivity.
  - discriminate.
  - vm_compute. reflexivity.
  - vm_compute. reflexivity.
Defined.

Lemma cmd_download_status_witness :
  ((cmd_download channel (plain false None false) blank).1 = Ok 1
   <-> [crossing_c; Samples.video "e" "601" "crossing the sea"] = [])
  /\ ([crossing_c; Samples.video "e" "601" "crossing the sea"] <> [] ->
      (cmd_download channel (plain false None false) blank).1 = Ok 0
      \/ exists e, (cmd_download channel (plain false None false) blank).1 = Raise e).
Proof.
  apply (DownloadCmdFacts.cmd_download_status Runtime.float Runtime.lower strip
           channel path_str (plain false None false) blank).
  - vm_compute. reflexivity.
  - intros n Hn. discriminate Hn.
Defined.

Lemma download_videos_missing_id_witness :
  (download_videos path_str [crossing_c; {[ "title" := "Untitled" ]}] "out" "720" blank).1
  = Raise (KeyError "id")
  /\ processes
       (download_videos path_str [crossing_c; {[ "title" := "Untitled" ]}] "out" "720"
          blank).2
     = (processes blank
        ++ map (fun v : entry =>
                  ["yt-dlp"; "-f"; download_videos_fmt "720"; "--merge-output-format"; "mp4";
                   "-o"; (path_str "out" ++ "/%(title)s.%(ext)s")%string;
                   ("https://www.youtube.com/watch?v="
                    ++ default EmptyString (v !! "id"))%string])
             [crossing_c])%list.
Proof.
  apply (DownloadCmdFacts.download_videos_missing_id path_str [crossing_c] []
           ({[ "title" := "Untitled" ]} : entry) "out" "720" blank).
  - constructor; [|constructor]. eexists _, _, _. reflexivity.
  - vm_compute. reflexivity.
Defined.



Lemma to_jsonable_returns_json_witness :
  json_safe (VDict [("text", VStr "hello");
                    ("confidence", VNum (NFloat (S754_finite false 4503599627370496 (-53))));
                    ("tokens", VList [VNone; VBool true; VNum (NInt 3)])]) = true.
Proof.
  apply (JsonableLaws.to_jsonable_returns_json Samples.transcript 3 0%nat).
  - intros l' o x E. destruct l' as [|[|[|[|[|[|l']]]]]]; discriminate E.
  - reflexivity.
Defined.

Lemma to_jsonable_dict_order_witness :
  exists kvs,
    VDict [("text", VStr "hello");
           ("confidence", VNum (NFloat (S754_finite false 4503599627370496 (-53))));
           ("tokens", VList [VNone; VBool true; VNum (NInt 3)])] = VDict kvs
    /\ map Ok (map fst kvs)
       = map str_of_key (map fst [(KStr "text", 1%nat); (KStr "confidence", 2%nat);
                                  (KStr "tokens", 3%nat)])
    /\ Forall2 (fun item kv => to_jsonable Samples.transcript 2 (snd item) = Ok (snd kv))
         [(KStr "text", 1%nat); (KStr "confidence", 2%nat); (KStr "tokens", 3%nat)] kvs.
Proof.
  apply (JsonableLaws.to_jsonable_dict_order Samples.transcript 2 0%nat).
  - reflexivity.
  - repeat (apply NoDup_cons; split;
            [intros H; repeat (apply elem_of_cons in H as [H|H]; [discriminate H|]);
             inversion H|]).
    apply NoDup_nil. exact I.
  - reflexivity.
Defined.

Lemma to_jsonable_public_attributes_witness :
  (exists s, Ok "<Node object>" = Ok s
             /\ VDict [("me", VDict [("me", VStr "<Node object>")])] = VStr s)
  \/ exists kvs, VDict [("me", VDict [("me", VStr "<Node object>")])] = VDict kvs
       /\ NoDup (map fst kvs)
       /\ forall name, name ∈ map fst kvs
            <-> (name ∈ map fst [("me", 7%nat); ("_hidden", 7%nat)]
                 /\ startswith name "_" = false).
Proof.
  apply (JsonableLaws.to_jsonable_public_attributes Samples.objects 2 7%nat
           {| dataclass := None; numpy := None; to_dict := Ok None;
              vars := Ok (Some [("me", 7%nat); ("_hidden", 7%nat)]);
              repr := Ok "<Node object>" |}); reflexivity.
Defined.

Lemma audio_paths_names_witness :
  Cli.basename "transcriptions/My_Talk.wav" = "My_Talk" ++ "." ++ "wav"
  /\ exists ext,
       "transcriptions/My_Talk.webm"
       = fst (Cli.splitext "transcriptions/My_Talk.webm") ++ ext
       /\ "transcriptions/My_Talk.wav"
          = fst (Cli.splitext "transcriptions/My_Talk.webm") ++ "." ++ "wav".
Proof.
  apply (TranscriptFacts.audio_paths_names "transcriptions/My_Talk.webm" "wav").
  reflexivity.
Defined.

Lemma write_transcripts_frame_witness :
  Cli.files (write_transcripts Samples.transcript 3 "transcriptions" "talk" 0%nat
               Samples.home).2 !! "/home/user/notes.mp3"
  = Cli.files Samples.home !! "/home/user/notes.mp3"
  /\ Cli.dirs (write_transcripts Samples.transcript 3 "transcriptions" "talk" 0%nat
                 Samples.home).2 = Cli.dirs Samples.home.
Proof.
  apply (TranscriptFacts.write_transcripts_frame Samples.abspath hello dump
           Samples.transcript 3 "transcriptions" "talk" 0%nat Samples.home
           "/home/user/notes.mp3").
  - intros H. vm_compute in H. discriminate H.
  - intros H. vm_compute in H. discriminate H.
Defined.

Lemma write_transcripts_json_failure_witness :
  (write_transcripts Samples.self_list 50 "transcriptions" "talk" 0%nat Samples.home).1
  = Raise RecursionError
  /\ Cli.files (write_transcripts Samples.self_list 50 "transcriptions" "talk" 0%nat
                  Samples.home).2
     !! Samples.abspath (Cli.join "transcriptions" ("talk" ++ ".txt")) = Some "hello"
  /\ Cli.files (write_transcripts Samples.self_list 50 "transcriptions" "talk" 0%nat
                  Samples.home).2
     !! Samples.abspath (Cli.join "transcriptions" ("talk" ++ ".json")) = Some EmptyString.
Proof.
  apply (TranscriptFacts.write_transcripts_json_failure Samples.abspath hello dump
           Samples.self_list 50 "transcriptions" "talk" 0%nat Samples.home "hello"
           RecursionError).
  - reflexivity.
  - vm_compute. reflexivity.
  - intros H. vm_compute in H. discriminate H.
Defined.

Lemma write_transcripts_success_witness :
  (write_transcripts Samples.transcript 3 "transcriptions" "talk" 0%nat Samples.home).1
  = Ok ("transcriptions/talk.txt", "transcriptions/talk.json")
  /\ Cli.basename "transcriptions/talk.txt" = "talk" ++ ".txt"
  /\ Cli.basename "transcriptions/talk.json" = "talk" ++ ".json"
  /\ Cli.files (write_transcripts Samples.transcript 3 "transcriptions" "talk" 0%nat
                  Samples.home).2 !! Samples.abspath "transcriptions/talk.txt"
     = Some "hello"
  /\ Cli.files (write_transcripts Samples.transcript 3 "transcriptions" "talk" 0%nat
                  Samples.home).2 !! Samples.abspath "transcriptions/talk.json"
     = Some "{...}".
Proof.
  assert (Hopen : forall d, "transcriptions" <> d ++ "/").
  { intros d H. pose proof (CliFacts.endswith_app_slash d) as Hslash.
    rewrite <- H in Hslash. discriminate Hslash. }
  apply (TranscriptFacts.write_transcripts_success Samples.abspath hello dump
           Samples.transcript 3 "transcriptions" "talk" 0%nat Samples.home "hello" "{...}"
           (VDict [("text", VStr "hello");
                   ("confidence",
                    VNum (NFloat (S754_finite false 4503599627370496 (-53))));
                   ("tokens", VList [VNone; VBool true; VNum (NInt 3)])])).
  - reflexivity.
  - reflexivity.
  - reflexivity.
  - reflexivity.
  - right. split; [discriminate|]. split; [exact Hopen|reflexivity].
  - right. split; [discriminate|]. split; [exact Hopen|reflexivity].
  - intros H. vm_compute in H. discriminate H.
Defined.

End LawExamples.
